(** * FABOLAS control loop ([robo/fmin/fabolas.py]): embedding and properties

    The development follows the source file top to bottom:

    - [Numeric]: the fidelity transform ([transform], [retransform]) and the
      two numeric primitives the loop computes with exactly ([np.rint],
      [int(...)]).  A number is the finite float64 value the code works on,
      read as the real it denotes; an int argument is read after the
      conversion to float that each of its uses performs.  The float64
      operations that round ([np.log], [np.exp], [+], [-], [*], [/]) are not
      interpreted: they are functions the development is parametrised by.
      Infinite and NaN values are outside this model.
    - [Run]: a state-and-exception monad in which the body of [fabolas] is
      written statement by statement.  The local variables of [fabolas]
      live in the monad's state, so that the state at the point where an
      exception is raised can be inspected.  The external collaborators
      (objective function, samplers, surrogate models, maximizer, clock) act
      on an abstract world and are collected in a record the loop is
      parametrised by; they are taken to return normally.
    - [Scenario], [Variants]: the concrete run of the specification and a
      few deviations from it, used wherever a statement is evaluated.
    - [NumericFacts], [RunFacts], [LoopExtras]: the properties. *)

From Stdlib Require Import Reals Lra Lia ZArith List Bool.
Import ListNotations.

Local Open Scope R_scope.

(* ===================================================================== *)
(** ** Numeric primitives and the fidelity transform *)
(* ===================================================================== *)

Module Numeric.

(** [np.rint]: round to the nearest integer, ties to the even neighbour.
    [Int_part] is the floor of a real. *)
Definition round_half_even (x : R) : Z :=
  let f := Int_part x in
  let d := x - IZR f in
  if Rlt_dec d (1 / 2) then f
  else if Rlt_dec (1 / 2) d then (f + 1)%Z
  else if Z.even f then f else (f + 1)%Z.

Definition np_rint (x : R) : R := IZR (round_half_even x).

(** Python's [int(x)] on a float: truncation towards zero. *)
Definition py_int (x : R) : Z :=
  if Rle_dec 0 x then Int_part x else (- Int_part (- x))%Z.

(** The float64 operations of NumPy and Python that round their result.
    Nothing is assumed of them. *)
Record float64_ops : Type := {
  np_log : R -> R;
  np_exp : R -> R;
  f_add : R -> R -> R;
  f_sub : R -> R -> R;
  f_mul : R -> R -> R;
  f_div : R -> R -> R
}.

(** [def transform(s, s_min, s_max)] *)
Definition transform (F : float64_ops) (s s_min s_max : R) : R :=
  let s_transform :=
    f_div F (f_sub F (np_log F s) (np_log F s_min))
            (f_sub F (np_log F s_max) (np_log F s_min)) in
  s_transform.

(** [def retransform(s_transform, s_min, s_max)] *)
Definition retransform (F : float64_ops) (s_transform s_min s_max : R) : R :=
  let s :=
    np_rint
      (np_exp F
         (f_add F
            (f_mul F s_transform
               (f_sub F (np_log F s_max) (np_log F s_min)))
            (np_log F s_min))) in
  s.

End Numeric.

(* ===================================================================== *)
(** ** The optimisation loop *)
(* ===================================================================== *)

Module Run.
Import Numeric.

(** Exceptions the body of [fabolas] can raise by itself. *)
Inductive exn : Type :=
| AssertionError
| TypeError
| IndexError
| ValueError.

Inductive outcome (A : Type) : Type :=
| Ret (a : A)
| Raise (e : exn).
Arguments Ret {A} a.
Arguments Raise {A} e.

(** The two surrogate models, [model_objective] and [model_cost]. *)
Inductive model_id : Type := ModelObjective | ModelCost.

(** Calls to the collaborators, recorded in call order. *)
Inductive event : Type :=
| EvCreateModel (m : model_id)
| EvCreateAcquisition (extend_lower extend_upper is_env : list R)
| EvInitDesign (lower upper : list R)
| EvObjective (x : list R) (s : R)
| EvTrain (m : model_id) (X : list (list R)) (targets : list R)
          (do_optimize : option bool)
| EvProject (m : model_id) (X : list (list R)) (proj_value : R)
| EvAcqUpdate
| EvMaximize.

Definition is_objective_call (e : event) : bool :=
  match e with EvObjective _ _ => true | _ => false end.

Definition is_model_event (e : event) : bool :=
  match e with
  | EvCreateModel _ | EvTrain _ _ _ _ => true
  | _ => false
  end.

Definition objective_calls (t : list event) : nat :=
  length (filter is_objective_call t).

(** The projection calls of a trace: the model, the configurations and the
    [proj_value] keyword argument of each. *)
Fixpoint projections (t : list event)
  : list (model_id * list (list R) * R) :=
  match t with
  | [] => []
  | EvProject m cfgs v :: t' => (m, cfgs, v) :: projections t'
  | _ :: t' => projections t'
  end.

(** Arguments of [fabolas].  [s_min] and [s_max] are finite; [s_max] is the
    float64 value that [s_max / float(...)], [np.append(..., s_max)],
    [incumbent[-1] = s_max], [proj_value=s_max] and [np.log(s_max)] all
    convert the argument to. *)
Record params (rng_t : Type) : Type := {
  lower : list R;
  upper : list R;
  s_min : R;
  s_max : R;
  n_init : Z;
  num_iterations : Z;
  burnin : Z;
  chain_length : Z;
  rng : option rng_t
}.
Arguments lower {rng_t} p.
Arguments upper {rng_t} p.
Arguments s_min {rng_t} p.
Arguments s_max {rng_t} p.
Arguments n_init {rng_t} p.
Arguments num_iterations {rng_t} p.
Arguments burnin {rng_t} p.
Arguments chain_length {rng_t} p.
Arguments rng {rng_t} p.

(** The [results] dictionary. *)
Record results : Type := {
  x_opt : list R;
  trajectory : list (list R);
  res_runtime : list R;
  res_overhead : list R;
  res_time_func_eval : list R
}.

(** The value of the variables [kernel] and [cost_kernel]: the int they
    start as, or a kernel object of [george]. *)
Inductive kernel_val (K : Type) : Type :=
| KInt (n : Z)
| KObj (k : K).
Arguments KInt {K} n.
Arguments KObj {K} k.

(** The two basis functions, [linear_bf] and [quadratic_bf]. *)
Inductive basis_func : Type := LinearBf | QuadraticBf.

(** The external collaborators.  Each acts on the world (clock, random
    generators, fitted model parameters, whatever the objective touches)
    and returns normally; the constructors of kernels and priors build
    values. *)
Record collaborators (world rng_t : Type) : Type := {
  (** the float64 operations *)
  numpy : float64_ops;
  (** [time.time()] *)
  time_time : world -> R * world;
  (** [np.random.RandomState(np.random.randint(0, 10000))] *)
  fresh_rng : world -> rng_t * world;
  (** kernel objects and prior objects *)
  kernel_t : Type;
  prior_t : Type;
  (** [george.kernels.Matern52Kernel(np.ones([1]) * 0.01, ndim=, dim=)] *)
  matern52 : nat -> nat -> kernel_t;
  (** [george.kernels.BayesianLinearRegressionKernel(ndim, dim=, degree=)]
      with its parameters set to [np.ones([degree + 1]) * 0.1] *)
  blr_kernel : nat -> nat -> Z -> kernel_t;
  (** [n * k] for an int [n] and a kernel [k] *)
  kernel_scale : Z -> kernel_t -> kernel_t;
  (** [k1 * k2] for two kernels *)
  kernel_mul : kernel_t -> kernel_t -> kernel_t;
  (** [len(k)] for a kernel *)
  kernel_len : kernel_t -> Z;
  (** [EnvPrior(n, n_ls=, n_lr=, rng=)] *)
  env_prior : Z -> nat -> Z -> rng_t -> prior_t;
  (** [FabolasGP(kernel, prior=, burnin_steps=, chain_length=, basis_func=,
      n_hypers=, normalize_input=False, lower=, upper=, rng=)], the model
      it creates being [model_objective] or [model_cost] *)
  fabolas_gp : model_id -> kernel_val kernel_t -> prior_t -> Z -> Z ->
               basis_func -> Z -> list R -> list R -> rng_t ->
               world -> world;
  (** [InformationGainPerUnitCost], [MarginalizationGPMCMC], [Direct] *)
  make_acquisition : list R -> list R -> list R -> world -> world;
  (** [init_random_uniform(lower, upper, 1, rng)[0]] *)
  init_random_uniform : list R -> list R -> rng_t -> world -> list R * world;
  (** [objective_function(x, s)], returning [(value, cost)] *)
  objective_function : list R -> R -> world -> (R * R) * world;
  (** [model.train(X, targets, do_optimize=...)]; [None] leaves the
      keyword to the collaborator's default *)
  train : model_id -> list (list R) -> list R -> option bool ->
          world -> world;
  (** [projected_incumbent_estimation(model, X, proj_value=...)] *)
  projected_incumbent_estimation :
    model_id -> list (list R) -> R -> world -> (list R * R) * world;
  (** [acquisition_func.update(model_objective, model_cost)] *)
  acquisition_update : world -> world;
  (** [maximizer.maximize()] *)
  maximize : world -> list R * world
}.
Arguments numpy {world rng_t} c.
Arguments kernel_t {world rng_t} c.
Arguments prior_t {world rng_t} c.
Arguments matern52 {world rng_t} c.
Arguments blr_kernel {world rng_t} c.
Arguments kernel_scale {world rng_t} c.
Arguments kernel_mul {world rng_t} c.
Arguments kernel_len {world rng_t} c.
Arguments env_prior {world rng_t} c.
Arguments fabolas_gp {world rng_t} c.
Arguments time_time {world rng_t} c.
Arguments fresh_rng {world rng_t} c.
Arguments make_acquisition {world rng_t} c.
Arguments init_random_uniform {world rng_t} c.
Arguments objective_function {world rng_t} c.
Arguments train {world rng_t} c.
Arguments projected_incumbent_estimation {world rng_t} c.
Arguments acquisition_update {world rng_t} c.
Arguments maximize {world rng_t} c.

(** The world, the call trace and the local variables of [fabolas]. *)
Record state (world : Type) : Type := {
  w : world;
  trace : list event;
  time_func_eval : list R;
  time_overhead : list R;
  incumbents : list (list R);
  runtime : list R;
  X : list (list R);
  y : list R;
  c : list R
}.
Arguments w {world} s.
Arguments trace {world} s.
Arguments time_func_eval {world} s.
Arguments time_overhead {world} s.
Arguments incumbents {world} s.
Arguments runtime {world} s.
Arguments X {world} s.
Arguments y {world} s.
Arguments c {world} s.

(** *** State updates: one per statement form of the source *)

Section Updates.
Context {world : Type}.
Implicit Type st : state world.

Definition set_world (v : world) st : state world :=
  {| w := v; trace := trace st;
     time_func_eval := time_func_eval st; time_overhead := time_overhead st;
     incumbents := incumbents st; runtime := runtime st;
     X := X st; y := y st; c := c st |}.

Definition add_event (e : event) st : state world :=
  {| w := w st; trace := trace st ++ [e];
     time_func_eval := time_func_eval st; time_overhead := time_overhead st;
     incumbents := incumbents st; runtime := runtime st;
     X := X st; y := y st; c := c st |}.

Definition set_time_func_eval (v : list R) st : state world :=
  {| w := w st; trace := trace st;
     time_func_eval := v; time_overhead := time_overhead st;
     incumbents := incumbents st; runtime := runtime st;
     X := X st; y := y st; c := c st |}.

Definition set_time_overhead (v : list R) st : state world :=
  {| w := w st; trace := trace st;
     time_func_eval := time_func_eval st; time_overhead := v;
     incumbents := incumbents st; runtime := runtime st;
     X := X st; y := y st; c := c st |}.

Definition set_incumbents (v : list (list R)) st : state world :=
  {| w := w st; trace := trace st;
     time_func_eval := time_func_eval st; time_overhead := time_overhead st;
     incumbents := v; runtime := runtime st;
     X := X st; y := y st; c := c st |}.

Definition set_runtime (v : list R) st : state world :=
  {| w := w st; trace := trace st;
     time_func_eval := time_func_eval st; time_overhead := time_overhead st;
     incumbents := incumbents st; runtime := v;
     X := X st; y := y st; c := c st |}.

Definition set_X (v : list (list R)) st : state world :=
  {| w := w st; trace := trace st;
     time_func_eval := time_func_eval st; time_overhead := time_overhead st;
     incumbents := incumbents st; runtime := runtime st;
     X := v; y := y st; c := c st |}.

Definition set_y (v : list R) st : state world :=
  {| w := w st; trace := trace st;
     time_func_eval := time_func_eval st; time_overhead := time_overhead st;
     incumbents := incumbents st; runtime := runtime st;
     X := X st; y := v; c := c st |}.

Definition set_c (v : list R) st : state world :=
  {| w := w st; trace := trace st;
     time_func_eval := time_func_eval st; time_overhead := time_overhead st;
     incumbents := incumbents st; runtime := runtime st;
     X := X st; y := y st; c := v |}.

End Updates.

(** *** The monad: state that survives an exception *)

Definition M (world A : Type) : Type := state world -> outcome A * state world.

Section Monad.
Context {world : Type}.

Definition ret {A} (a : A) : M world A := fun st => (Ret a, st).

Definition raise {A} (e : exn) : M world A := fun st => (Raise e, st).

Definition bind {A B} (m : M world A) (k : A -> M world B) : M world B :=
  fun st =>
    match m st with
    | (Ret a, st') => k a st'
    | (Raise e, st') => (Raise e, st')
    end.

Definition get : M world (state world) := fun st => (Ret st, st).

Definition modify (f : state world -> state world) : M world unit :=
  fun st => (Ret tt, f st).

(** A collaborator call: the call is recorded, then it acts on the world. *)
Definition lift {A} (f : world -> A * world) : M world A :=
  fun st => let (a, w') := f (w st) in (Ret a, set_world w' st).

Definition log (e : event) : M world unit := modify (add_event e).

(** [assert cond, msg] *)
Definition assert_ (cond : bool) : M world unit :=
  if cond then ret tt else raise AssertionError.

End Monad.

Declare Scope py_scope.
Delimit Scope py_scope with py.
Notation "x <- m ;; k" := (bind m (fun x => k))
  (at level 100, m at next level, right associativity) : py_scope.
Notation "' p <- m ;; k" := (bind m (fun p => k))
  (at level 100, p pattern, m at next level, right associativity) : py_scope.
Notation "m ;; k" := (bind m (fun _ => k))
  (at level 100, right associativity) : py_scope.


Local Open Scope py_scope.

(** *** Python and NumPy operations used by the loop *)

Section PyOps.
Context {world : Type}.

(** [l[k]] on a list or a one-dimensional array; a negative [k] counts
    from the end; out of range raises [IndexError]. *)
Definition py_get {A} (l : list A) (k : Z) : option A :=
  let n := Z.of_nat (length l) in
  let k' := if (k <? 0)%Z then (n + k)%Z else k in
  if ((0 <=? k') && (k' <? n))%Z%bool then nth_error l (Z.to_nat k') else None.

Definition py_index {A} (l : list A) (k : Z) : M world A :=
  match py_get l k with
  | Some a => ret a
  | None => raise IndexError
  end.

(** [v[-1] = a] on a one-dimensional array. *)
Definition set_last (v : list R) (a : R) : M world (list R) :=
  match v with
  | [] => raise IndexError
  | _ :: _ => ret (removelast v ++ [a])
  end.

(** [range(n)] and [range(a, b)]. *)
Definition range (n : Z) : list Z :=
  map Z.of_nat (seq 0 (Z.to_nat n)).

Definition range2 (a b : Z) : list Z :=
  map (fun k => (a + Z.of_nat k)%Z) (seq 0 (Z.to_nat (b - a))).

(** [for a in l: body(a)] *)
Fixpoint for_each {A} (l : list A) (body : A -> M world unit) : M world unit :=
  match l with
  | [] => ret tt
  | a :: l' => body a ;; for_each l' body
  end.

(** [np.argmin] of a non-empty sequence: index of the first minimum. *)
Fixpoint argmin_from (best_idx : nat) (best : R) (i : nat) (l : list R) : nat :=
  match l with
  | [] => best_idx
  | v :: l' =>
      if Rlt_dec v best then argmin_from i v (S i) l'
      else argmin_from best_idx best (S i) l'
  end.

Definition np_argmin (l : list R) : M world Z :=
  match l with
  | [] => raise ValueError
  | v :: l' => ret (Z.of_nat (argmin_from 0 v 1 l'))
  end.

(** [np.array(rows)] of a list of one-dimensional arrays.  The empty list
    gives a one-dimensional array of shape [(0,)], rows of one length give
    a two-dimensional array, ragged rows are refused.  Both arrays are kept
    as the list of their rows: a two-dimensional array always has a row
    here, since the loop only ever adds rows. *)
Definition uniform_rows (rows : list (list R)) : bool :=
  match rows with
  | [] => true
  | r :: rows' => forallb (fun r' => Nat.eqb (length r') (length r)) rows'
  end.

Definition np_array (rows : list (list R)) : M world (list (list R)) :=
  if uniform_rows rows then ret rows else raise ValueError.

(** [A[:, :-1]]: two indices on the one-dimensional empty array raise
    [IndexError]. *)
Definition drop_last_column (A : list (list R)) : M world (list (list R)) :=
  match A with
  | [] => raise IndexError
  | _ :: _ => ret (map (@removelast R) A)
  end.

(** [np.concatenate((A, v[None, :]), axis=0)]: the dimensions and the
    row lengths have to agree. *)
Definition np_concatenate_row (A : list (list R)) (v : list R)
  : M world (list (list R)) :=
  match A with
  | [] => raise ValueError
  | r :: _ =>
      if Nat.eqb (length v) (length r) then ret (A ++ [v]) else raise ValueError
  end.

(** Calls of the two module-level functions.  Both take three positional
    parameters without defaults; any other number of arguments is a
    [TypeError]. *)
Definition call_transform (F : float64_ops) (args : list R) : M world R :=
  match args with
  | [s; s_min; s_max] => ret (transform F s s_min s_max)
  | _ => raise TypeError
  end.

Definition call_retransform (F : float64_ops) (args : list R) : M world R :=
  match args with
  | [s_transform; s_min; s_max] =>
      ret (retransform F s_transform s_min s_max)
  | _ => raise TypeError
  end.

End PyOps.

(** The divisors of the initial design and the fidelity of round [i]:
    [int(s_max / float(subsets[i % len(subsets))])].  [s_max] is the float64
    value the division converts the argument to.  The divisors are powers
    of two, so the float64 quotient is the exact one, except for a quotient
    too small to be represented, which truncates to 0 like the exact one. *)
Definition subsets : list Z := [256; 128; 64; 32]%Z.

Definition init_fidelity (s_max : R) (i : Z) : Z :=
  py_int (s_max /
          IZR (nth (Z.to_nat (i mod Z.of_nat (length subsets))) subsets 0%Z)).


(** *** [def fabolas(...)] *)

Section Fabolas.
Context {world rng_t : Type}.
Variable E : collaborators world rng_t.
Variable p : params rng_t.

Local Abbreviation Mw := (M world).

(** [lst.append(v)] on the bookkeeping lists. *)
Definition append_time_func_eval (v : R) : Mw unit :=
  modify (fun st => set_time_func_eval (time_func_eval st ++ [v]) st).
Definition append_time_overhead (v : R) : Mw unit :=
  modify (fun st => set_time_overhead (time_overhead st ++ [v]) st).
Definition append_incumbents (v : list R) : Mw unit :=
  modify (fun st => set_incumbents (incumbents st ++ [v]) st).
Definition append_runtime (v : R) : Mw unit :=
  modify (fun st => set_runtime (runtime st ++ [v]) st).
Definition append_X (v : list R) : Mw unit :=
  modify (fun st => set_X (X st ++ [v]) st).
Definition append_y (v : R) : Mw unit :=
  modify (fun st => set_y (y st ++ [v]) st).
Definition append_c (v : R) : Mw unit :=
  modify (fun st => set_c (c st ++ [v]) st).

(** Lines 72-79: the empty bookkeeping lists. *)
Definition init_bookkeeping : Mw unit :=
  modify (set_time_func_eval []) ;;
  modify (set_time_overhead []) ;;
  modify (set_incumbents []) ;;
  modify (set_runtime []) ;;
  modify (set_X []) ;;
  modify (set_y []) ;;
  modify (set_c []).

(** [kernel *= k]: the int a kernel variable starts as is absorbed by the
    first kernel object it is multiplied with. *)
Definition kernel_imul (kernel : kernel_val (kernel_t E)) (k : kernel_t E)
  : kernel_val (kernel_t E) :=
  match kernel with
  | KInt n => KObj (kernel_scale E n k)
  | KObj k0 => KObj (kernel_mul E k0 k)
  end.

(** Lines 82-88 and 123-130: [kernel = 1] followed by
    [for d in range(n_dims): kernel *= Matern52Kernel(..., ndim=n_dims+1, dim=d)]. *)
Definition ard_kernel (n_dims : nat) : kernel_val (kernel_t E) :=
  fold_left (fun kernel d => kernel_imul kernel (matern52 E (n_dims + 1) d))
            (seq 0 n_dims) (KInt 1).

(** [len(kernel)]: an int has no length. *)
Definition py_len (kernel : kernel_val (kernel_t E)) : Mw Z :=
  match kernel with
  | KInt _ => raise TypeError
  | KObj k => ret (kernel_len E k)
  end.

(** Lines 81-171: the two models, the extended bounds, the acquisition
    function and its maximizer. *)
Definition setup (rng0 : rng_t) : Mw unit :=
  let n_dims := length (lower p) in
  (* the objective model *)
  let kernel := ard_kernel n_dims in
  let degree := 1%Z in
  let env_kernel := blr_kernel E (n_dims + 1) n_dims degree in
  len_kernel <- py_len kernel ;;
  let n_hypers := (3 * len_kernel)%Z in
  let n_hypers :=
    if (n_hypers mod 2 =? 1)%Z then (n_hypers + 1)%Z else n_hypers in
  len_kernel' <- py_len kernel ;;
  let prior := env_prior E (len_kernel' + 1) n_dims (degree + 1) rng0 in
  log (EvCreateModel ModelObjective) ;;
  lift (fun w0 =>
          (tt, fabolas_gp E ModelObjective kernel prior
                 (burnin p) (chain_length p) QuadraticBf n_hypers
                 (lower p) (upper p) rng0 w0)) ;;
  (* the cost model *)
  let cost_kernel := ard_kernel n_dims in
  let cost_degree := 1%Z in
  let cost_env_kernel := blr_kernel E (n_dims + 1) n_dims cost_degree in
  let cost_kernel := kernel_imul cost_kernel cost_env_kernel in
  len_cost_kernel <- py_len cost_kernel ;;
  let cost_prior :=
    env_prior E (len_cost_kernel + 1) n_dims (cost_degree + 1) rng0 in
  log (EvCreateModel ModelCost) ;;
  lift (fun w0 =>
          (tt, fabolas_gp E ModelCost cost_kernel cost_prior
                 (burnin p) (chain_length p) LinearBf n_hypers
                 (lower p) (upper p) rng0 w0)) ;;
  (* the input space extended by the fidelity *)
  let extend_lower := lower p ++ [0] in
  let extend_upper := upper p ++ [1] in
  is_env <- set_last (repeat 0 (length extend_lower)) 1 ;;
  log (EvCreateAcquisition extend_lower extend_upper is_env) ;;
  lift (fun w0 => (tt, make_acquisition E extend_lower extend_upper is_env w0)).

(** Lines 184-196: the bookkeeping of an initial-design round, from the
    transformed fidelity on. *)
Definition record_initial (time_start start_time_overhead : R)
    (x : list R) (s_transformed func_val cost : R) : Mw unit :=
  let config := x ++ [s_transformed] in
  append_X config ;;
  append_y func_val ;;
  append_c cost ;;
  st <- get ;;
  best_idx <- np_argmin (y st) ;;
  best <- py_index (X st) best_idx ;;
  append_incumbents (best ++ [s_max p]) ;;
  t1 <- lift (time_time E) ;;
  append_time_overhead (f_sub (numpy E) t1 start_time_overhead) ;;
  t2 <- lift (time_time E) ;;
  append_runtime (f_sub (numpy E) t2 time_start).

(** Lines 175-196: the body of [for i in range(n_init)]. *)
Definition init_round (time_start : R) (rng0 : rng_t) (i : Z) : Mw unit :=
  start_time_overhead <- lift (time_time E) ;;
  let s := IZR (init_fidelity (s_max p) i) in
  log (EvInitDesign (lower p) (upper p)) ;;
  x <- lift (init_random_uniform E (lower p) (upper p) rng0) ;;
  st <- lift (time_time E) ;;
  log (EvObjective x s) ;;
  '(func_val, cost) <- lift (objective_function E x s) ;;
  t0 <- lift (time_time E) ;;
  append_time_func_eval (f_sub (numpy E) t0 st) ;;
  s_transformed <- call_transform (numpy E) [s] ;;
  record_initial time_start start_time_overhead x s_transformed func_val cost.

(** Lines 202-240: the body of [for it in range(n_init, num_iterations)]. *)
Definition guided_round (time_start : R) (it : Z) : Mw unit :=
  start_time <- lift (time_time E) ;;
  st <- get ;;
  log (EvTrain ModelObjective (X st) (y st) (Some true)) ;;
  lift (fun w0 => (tt, train E ModelObjective (X st) (y st) (Some true) w0)) ;;
  log (EvTrain ModelCost (X st) (c st) (Some true)) ;;
  lift (fun w0 => (tt, train E ModelCost (X st) (c st) (Some true) w0)) ;;
  configs <- drop_last_column (X st) ;;
  log (EvProject ModelObjective configs (s_max p)) ;;
  '(incumbent, incumbent_value) <-
     lift (projected_incumbent_estimation E ModelObjective configs (s_max p)) ;;
  append_incumbents incumbent ;;
  log EvAcqUpdate ;;
  lift (fun w0 => (tt, acquisition_update E w0)) ;;
  log EvMaximize ;;
  new_x <- lift (maximize E) ;;
  s_t <- py_index new_x (-1) ;;
  s <- call_retransform (numpy E) [s_t; s_min p; s_max p] ;;
  t0 <- lift (time_time E) ;;
  append_time_overhead (f_sub (numpy E) t0 start_time) ;;
  start_time <- lift (time_time E) ;;
  log (EvObjective (removelast new_x) s) ;;
  '(new_y, new_c) <- lift (objective_function E (removelast new_x) s) ;;
  t1 <- lift (time_time E) ;;
  append_time_func_eval (f_sub (numpy E) t1 start_time) ;;
  X' <- np_concatenate_row (X st) new_x ;;
  modify (set_X X') ;;
  modify (set_y (y st ++ [new_y])) ;;
  modify (set_c (c st ++ [new_c])) ;;
  t2 <- lift (time_time E) ;;
  append_runtime (f_sub (numpy E) t2 time_start).

(** Lines 242-256: the final incumbent and the result dictionary. *)
Definition finalize : Mw results :=
  st <- get ;;
  log (EvTrain ModelObjective (X st) (y st) None) ;;
  lift (fun w0 => (tt, train E ModelObjective (X st) (y st) None w0)) ;;
  configs <- drop_last_column (X st) ;;
  log (EvProject ModelObjective configs 1) ;;
  '(incumbent, incumbent_value) <-
     lift (projected_incumbent_estimation E ModelObjective configs 1) ;;
  incumbent <- set_last incumbent (s_max p) ;;
  append_incumbents incumbent ;;
  st' <- get ;;
  ret {| x_opt := removelast incumbent;
         trajectory := incumbents st';
         res_runtime := runtime st';
         res_overhead := time_overhead st';
         res_time_func_eval := time_func_eval st' |}.

(** Lines 173-256: the two loops and the finalization. *)
Definition run_rounds (time_start : R) (rng0 : rng_t) : Mw results :=
  for_each (range (n_init p)) (init_round time_start rng0) ;;
  st <- get ;;
  X' <- np_array (X st) ;;
  modify (set_X X') ;;
  for_each (range2 (n_init p) (num_iterations p)) (guided_round time_start) ;;
  finalize.

Definition fabolas : Mw results :=
  assert_ (n_init p <=? num_iterations p)%Z ;;
  assert_ (Nat.eqb (length (lower p)) (length (upper p))) ;;
  time_start <- lift (time_time E) ;;
  rng0 <- match rng p with
          | None => lift (fresh_rng E)
          | Some r => ret r
          end ;;
  init_bookkeeping ;;
  setup rng0 ;;
  run_rounds time_start rng0.

End Fabolas.

(** *** Completed rounds

    One completed round, initial or model-guided, and [k] completed rounds
    in a row. *)
Inductive round_step {world rng_t} (E : collaborators world rng_t)
    (p : params rng_t) (time_start : R) (rng0 : rng_t)
  : state world -> state world -> Prop :=
| step_initial i st st' :
    init_round E p time_start rng0 i st = (Ret tt, st') ->
    round_step E p time_start rng0 st st'
| step_guided it st st' :
    guided_round E p time_start it st = (Ret tt, st') ->
    round_step E p time_start rng0 st st'.

Inductive completed_rounds {world rng_t} (E : collaborators world rng_t)
    (p : params rng_t) (time_start : R) (rng0 : rng_t)
  : nat -> state world -> state world -> Prop :=
| rounds_none st : completed_rounds E p time_start rng0 0 st st
| rounds_more k st st' st'' :
    completed_rounds E p time_start rng0 k st st' ->
    round_step E p time_start rng0 st' st'' ->
    completed_rounds E p time_start rng0 (S k) st st''.

(** *** Predicates on states *)

(** The store and the trajectory: the part of the state the claims about
    bookkeeping speak of. *)
Definition same_store {world} (st st' : state world) : Prop :=
  X st' = X st /\ y st' = y st /\ c st' = c st /\
  incumbents st' = incumbents st.

(** The store holds [n] records and the trajectory [n] incumbents. *)
Definition store_sizes {world} (n : nat) (st : state world) : Prop :=
  length (X st) = n /\ length (y st) = n /\ length (c st) = n /\
  length (incumbents st) = n.

(** *** The initial schedule as the specification words it

    A schedule of candidate fidelities is descending when later entries are
    not larger than earlier ones; the initial design cycles it when round
    [i] uses its entry [i mod length]. *)
Definition descending (schedule : list Z) : Prop :=
  forall j k, (j < k < length schedule)%nat ->
    (nth k schedule 0 <= nth j schedule 0)%Z.

Definition cycles_schedule (s_max : R) (schedule : list Z) : Prop :=
  forall i, (0 <= i)%Z ->
    init_fidelity s_max i =
      nth (Z.to_nat (i mod Z.of_nat (length schedule))) schedule 0%Z.

End Run.

(* ===================================================================== *)
(** ** A concrete scenario *)
(* ===================================================================== *)

(** The scenario of the specification: a two-dimensional unit box,
    [s_min = 1], [s_max = 256].  The world is a counter read as the clock;
    the collaborators are simple total functions. *)
Module Scenario.
Import Run.

(** The float64 operations of the concrete runs: the ones without rounding
    error.  The runs evaluate statements about the control flow and the
    bookkeeping, none of which depends on the values these operations
    return. *)
Definition exact_ops : Numeric.float64_ops := {|
  Numeric.np_log := ln;
  Numeric.np_exp := exp;
  Numeric.f_add := Rplus;
  Numeric.f_sub := Rminus;
  Numeric.f_mul := Rmult;
  Numeric.f_div := Rdiv
|}.

(** A kernel is the number of its parameters; priors carry nothing. *)
Definition E : collaborators nat unit := {|
  numpy := exact_ops;
  time_time := fun w0 => (INR w0, S w0);
  fresh_rng := fun w0 => (tt, w0);
  kernel_t := nat;
  prior_t := unit;
  matern52 := fun _ _ => 1%nat;
  blr_kernel := fun _ _ degree => Z.to_nat (degree + 1);
  kernel_scale := fun _ k => S k;
  kernel_mul := fun k1 k2 => (k1 + k2)%nat;
  kernel_len := fun k => Z.of_nat k;
  env_prior := fun _ _ _ _ => tt;
  fabolas_gp := fun _ _ _ _ _ _ _ _ _ _ w0 => w0;
  make_acquisition := fun _ _ _ w0 => w0;
  init_random_uniform := fun lo _ _ w0 => (lo, w0);
  objective_function := fun x s w0 => ((fold_right Rplus 0 x, s), w0);
  train := fun _ _ _ _ w0 => w0;
  projected_incumbent_estimation :=
    fun _ configs v w0 => ((hd [] configs ++ [v], 0), w0);
  acquisition_update := fun w0 => w0;
  maximize := fun w0 => ([1 / 2; 1 / 2; 1 / 2], w0)
|}.

Definition scenario (n_init num_iterations : Z) : params unit := {|
  lower := [0; 0];
  upper := [1; 1];
  s_min := 1;
  s_max := 256;
  n_init := n_init;
  num_iterations := num_iterations;
  burnin := 100;
  chain_length := 200;
  rng := None
|}.

(** Before the call: nothing recorded, clock at zero. *)
Definition start : state nat := {|
  w := 0%nat; trace := [];
  time_func_eval := []; time_overhead := [];
  incumbents := []; runtime := [];
  X := []; y := []; c := []
|}.

(** A store holding one observation, as a model-guided round or the
    finalization would find it after one completed round. *)
Definition one_observation : state nat := {|
  w := 0%nat; trace := [];
  time_func_eval := [1]; time_overhead := [1];
  incumbents := [[0; 0; 256]]; runtime := [2];
  X := [[0; 0; 1 / 4]]; y := [3]; c := [4]
|}.

(** The state after one model-guided round on that store. *)
Definition after_guided : state nat :=
  snd (guided_round E (scenario 1 2) 0 1 one_observation).

End Scenario.

(** Two maximizers that break their contract: one forgets the fidelity
    coordinate, one returns no coordinate at all. *)
Module Variants.
Import Run.

Definition E_short : collaborators nat unit := {|
  numpy := numpy Scenario.E;
  time_time := time_time Scenario.E;
  fresh_rng := fresh_rng Scenario.E;
  kernel_t := kernel_t Scenario.E;
  prior_t := prior_t Scenario.E;
  matern52 := matern52 Scenario.E;
  blr_kernel := blr_kernel Scenario.E;
  kernel_scale := kernel_scale Scenario.E;
  kernel_mul := kernel_mul Scenario.E;
  kernel_len := kernel_len Scenario.E;
  env_prior := env_prior Scenario.E;
  fabolas_gp := fabolas_gp Scenario.E;
  make_acquisition := make_acquisition Scenario.E;
  init_random_uniform := init_random_uniform Scenario.E;
  objective_function := objective_function Scenario.E;
  train := train Scenario.E;
  projected_incumbent_estimation :=
    projected_incumbent_estimation Scenario.E;
  acquisition_update := acquisition_update Scenario.E;
  maximize := fun w0 => ([1 / 2; 1 / 2], w0)
|}.

Definition E_empty : collaborators nat unit := {|
  numpy := numpy Scenario.E;
  time_time := time_time Scenario.E;
  fresh_rng := fresh_rng Scenario.E;
  kernel_t := kernel_t Scenario.E;
  prior_t := prior_t Scenario.E;
  matern52 := matern52 Scenario.E;
  blr_kernel := blr_kernel Scenario.E;
  kernel_scale := kernel_scale Scenario.E;
  kernel_mul := kernel_mul Scenario.E;
  kernel_len := kernel_len Scenario.E;
  env_prior := env_prior Scenario.E;
  fabolas_gp := fabolas_gp Scenario.E;
  make_acquisition := make_acquisition Scenario.E;
  init_random_uniform := init_random_uniform Scenario.E;
  objective_function := objective_function Scenario.E;
  train := train Scenario.E;
  projected_incumbent_estimation :=
    projected_incumbent_estimation Scenario.E;
  acquisition_update := acquisition_update Scenario.E;
  maximize := fun w0 => ([], w0)
|}.

(** A call without a dimension: empty bounds, one initial round. *)
Definition no_dimension : params unit := {|
  lower := [];
  upper := [];
  s_min := 1;
  s_max := 256;
  n_init := 1;
  num_iterations := 1;
  burnin := 100;
  chain_length := 200;
  rng := None
|}.

(** A store of two observations; the second has the lower value. *)
Definition two_observations : state nat := {|
  w := 0%nat; trace := [];
  time_func_eval := [1; 1]; time_overhead := [1; 1];
  incumbents := [[0; 0; 256]; [0; 0; 256]]; runtime := [2; 4];
  X := [[0; 0; 1 / 4]; [1; 1; 1 / 2]]; y := [3; 2]; c := [4; 5]
|}.

End Variants.

(* ===================================================================== *)
(** ** Properties of the numeric primitives *)
(* ===================================================================== *)

Module NumericFacts.
Import Numeric.

(** *** Floor and rounding facts *)

Lemma Int_part_bounds (x : R) : IZR (Int_part x) <= x < IZR (Int_part x) + 1.
Proof.
  destruct (base_Int_part x) as [Hlo Hhi]. split; lra.
Qed.

Lemma Int_part_IZR (z : Z) : Int_part (IZR z) = z.
Proof.
  symmetry. apply Int_part_spec. lra.
Qed.

Lemma Int_part_mono (x y : R) : x <= y -> (Int_part x <= Int_part y)%Z.
Proof.
  intros Hxy.
  destruct (Int_part_bounds x) as [Hx _].
  destruct (Int_part_bounds y) as [_ Hy].
  assert (H : IZR (Int_part x) < IZR (Int_part y + 1)).
  { rewrite plus_IZR. simpl. lra. }
  apply lt_IZR in H. lia.
Qed.

Lemma round_half_even_IZR (z : Z) : round_half_even (IZR z) = z.
Proof.
  unfold round_half_even. rewrite Int_part_IZR.
  destruct (Rlt_dec (IZR z - IZR z) (1 / 2)) as [_ | Hn]; [reflexivity | ].
  exfalso. apply Hn. lra.
Qed.

Lemma round_half_even_range (x : R) :
  (Int_part x <= round_half_even x <= Int_part x + 1)%Z.
Proof.
  unfold round_half_even.
  destruct (Rlt_dec _ _); [lia | ].
  destruct (Rlt_dec _ _); [lia | ].
  destruct (Z.even _); lia.
Qed.

Lemma round_half_even_mono (x y : R) :
  x <= y -> (round_half_even x <= round_half_even y)%Z.
Proof.
  intros Hxy.
  pose proof (Int_part_mono x y Hxy) as Hfl.
  destruct (Z.eq_dec (Int_part x) (Int_part y)) as [Heq | Hne].
  - unfold round_half_even. rewrite Heq.
    destruct (Rlt_dec (x - IZR (Int_part y)) (1 / 2)) as [Hx1 | Hx1].
    + destruct (Rlt_dec (y - IZR (Int_part y)) (1 / 2)); [lia | ].
      destruct (Rlt_dec (1 / 2) (y - IZR (Int_part y))); [lia | ].
      destruct (Z.even (Int_part y)); lia.
    + destruct (Rlt_dec (1 / 2) (x - IZR (Int_part y))) as [Hx2 | Hx2].
      * destruct (Rlt_dec (y - IZR (Int_part y)) (1 / 2)); [exfalso; lra | ].
        destruct (Rlt_dec (1 / 2) (y - IZR (Int_part y))); [lia | exfalso; lra].
      * destruct (Rlt_dec (y - IZR (Int_part y)) (1 / 2)); [exfalso; lra | ].
        destruct (Rlt_dec (1 / 2) (y - IZR (Int_part y))).
        -- destruct (Z.even (Int_part y)); lia.
        -- lia.
  - pose proof (round_half_even_range x). pose proof (round_half_even_range y).
    lia.
Qed.

Lemma np_rint_IZR (z : Z) : np_rint (IZR z) = IZR z.
Proof.
  unfold np_rint. now rewrite round_half_even_IZR.
Qed.

Lemma np_rint_mono (x y : R) : x <= y -> np_rint x <= np_rint y.
Proof.
  intros H. unfold np_rint. apply IZR_le. now apply round_half_even_mono.
Qed.

Lemma py_int_nonneg (x : R) : 0 <= x -> py_int x = Int_part x.
Proof.
  intros H. unfold py_int. destruct (Rle_dec 0 x); [reflexivity | contradiction].
Qed.

Lemma py_int_IZR (z : Z) : py_int (IZR z) = z.
Proof.
  unfold py_int. destruct (Rle_dec 0 (IZR z)).
  - apply Int_part_IZR.
  - rewrite <- opp_IZR, Int_part_IZR. lia.
Qed.

Lemma py_int_mono_nonneg (x y : R) : 0 <= x -> x <= y -> (py_int x <= py_int y)%Z.
Proof.
  intros Hx Hxy. rewrite !py_int_nonneg by lra. now apply Int_part_mono.
Qed.

End NumericFacts.

(* ===================================================================== *)
(** ** Properties of the loop *)
(* ===================================================================== *)

Module RunFacts.
Import Numeric NumericFacts Run.
Local Open Scope py_scope.

(** *** Stepping through the monad *)

Section MonadLaws.
Context {world : Type}.

Lemma bind_ret_eq {A B} (m : M world A) (k : A -> M world B) st a st' :
  m st = (Ret a, st') -> bind m k st = k a st'.
Proof. intros H. unfold bind. now rewrite H. Qed.

Lemma bind_raise_eq {A B} (m : M world A) (k : A -> M world B) st e st' :
  m st = (Raise e, st') -> bind m k st = (Raise e, st').
Proof. intros H. unfold bind. now rewrite H. Qed.

Lemma bind_inv_ret {A B} (m : M world A) (k : A -> M world B) st b st'' :
  bind m k st = (Ret b, st'') ->
  exists a st', m st = (Ret a, st') /\ k a st' = (Ret b, st'').
Proof.
  unfold bind. destruct (m st) as [[a | e] st'] eqn:Hm; intros H.
  - now exists a, st'.
  - discriminate.
Qed.

Lemma for_each_cons {A} (a : A) l (body : A -> M world unit) :
  for_each (a :: l) body = bind (body a) (fun _ => for_each l body).
Proof. reflexivity. Qed.

End MonadLaws.

(** Unfold one layer of monadic plumbing and name the results of the
    collaborator calls met on the way. *)
Ltac py_unfold :=
  unfold bind, lift, log, modify, get, ret, raise, assert_,
         append_time_func_eval, append_time_overhead, append_incumbents,
         append_runtime, append_X, append_y, append_c,
         py_index, call_transform, call_retransform; cbn.

Ltac py_split :=
  match goal with
  | |- context [time_time ?E ?w0] => destruct (time_time E w0); cbn
  | |- context [fresh_rng ?E ?w0] => destruct (fresh_rng E w0); cbn
  | |- context [init_random_uniform ?E ?a ?b ?r ?w0] =>
      destruct (init_random_uniform E a b r w0); cbn
  | |- context [objective_function ?E ?x ?s ?w0] =>
      destruct (objective_function E x s w0) as [[? ?] ?]; cbn
  | |- context [projected_incumbent_estimation ?E ?m ?x ?v ?w0] =>
      destruct (projected_incumbent_estimation E m x v w0) as [[? ?] ?]; cbn
  | |- context [maximize ?E ?w0] => destruct (maximize E w0); cbn
  end.

Ltac py_run := py_unfold; repeat py_split.

Lemma range_pos (n : Z) :
  (1 <= n)%Z -> range n = 0%Z :: map Z.of_nat (seq 1 (Z.to_nat n - 1)).
Proof.
  intros Hn. unfold range.
  destruct (Z.to_nat n) as [| k] eqn:Hk; [lia | ].
  cbn. now rewrite Nat.sub_0_r.
Qed.

Lemma range_nonpos (n : Z) : (n <= 0)%Z -> range n = [].
Proof.
  intros Hn. unfold range. now replace (Z.to_nat n) with 0%nat by lia.
Qed.

Lemma argmin_from_bound (l : list R) :
  forall best_idx best i,
    (best_idx < i)%nat -> (argmin_from best_idx best i l < i + length l)%nat.
Proof.
  induction l as [| v l IH]; intros best_idx best i Hlt; cbn; [lia | ].
  destruct (Rlt_dec v best).
  - specialize (IH i v (S i)). lia.
  - specialize (IH best_idx best (S i)). lia.
Qed.

Lemma py_get_nat {A} (l : list A) (k : nat) :
  (k < length l)%nat -> py_get l (Z.of_nat k) = nth_error l k.
Proof.
  intros Hk. unfold py_get.
  destruct (Z.ltb_spec (Z.of_nat k) 0); [lia | ].
  destruct (Z.leb_spec 0 (Z.of_nat k)); [ | lia].
  destruct (Z.ltb_spec (Z.of_nat k) (Z.of_nat (length l))); [ | lia].
  cbn. now rewrite Nat2Z.id.
Qed.

Section LoopFacts.
Context {world rng_t : Type}.
Variable E : collaborators world rng_t.
Variable p : params rng_t.
Implicit Type st : state world.

(** An initial-design round stops at [transform(s)]: one sample is drawn,
    the objective is called once, its duration is recorded, and the call
    with one argument raises. *)
Lemma init_round_raises time_start rng0 i st :
  exists st' x,
    init_round E p time_start rng0 i st = (Raise TypeError, st') /\
    same_store st st' /\
    trace st' = trace st ++
      [EvInitDesign (lower p) (upper p);
       EvObjective x (IZR (init_fidelity (s_max p) i))] /\
    length (time_func_eval st') = S (length (time_func_eval st)).
Proof.
  unfold init_round. py_run.
  eexists _, _. split; [reflexivity | ].
  cbn. unfold same_store. cbn.
  rewrite <- app_assoc, length_app. cbn.
  repeat split; try reflexivity. lia.
Qed.

(** *** Setting up: kernels and models *)

Lemma kernel_imul_object (kernel : kernel_val (kernel_t E)) (k : kernel_t E) :
  exists k', kernel_imul E kernel k = KObj k'.
Proof.
  destruct kernel; eexists; reflexivity.
Qed.

(** Without a dimension the kernel variable is still the int 1. *)
Lemma ard_kernel_0 : ard_kernel E 0 = KInt 1.
Proof. reflexivity. Qed.

Lemma ard_kernel_object (n_dims : nat) :
  n_dims <> 0%nat -> exists k, ard_kernel E n_dims = KObj k.
Proof.
  intros Hn. destruct n_dims as [| n]; [contradiction | ].
  unfold ard_kernel. rewrite seq_S, fold_left_app. cbn [fold_left].
  apply kernel_imul_object.
Qed.

(** With at least one dimension the set-up returns, having created the two
    models and the acquisition function and recorded nothing. *)
Lemma setup_returns rng0 st :
  lower p <> [] ->
  exists st',
    setup E p rng0 st = (Ret tt, st') /\
    same_store st st' /\
    time_func_eval st' = time_func_eval st /\
    filter is_objective_call (trace st') = filter is_objective_call (trace st) /\
    trace st' = trace st ++
      [EvCreateModel ModelObjective;
       EvCreateModel ModelCost;
       EvCreateAcquisition (lower p ++ [0]) (upper p ++ [1])
         (removelast (repeat 0 (S (length (lower p)))) ++ [1])].
Proof.
  intros Hdim.
  assert (Hn : length (lower p) <> 0%nat)
    by (destruct (lower p); [contradiction | discriminate]).
  destruct (ard_kernel_object _ Hn) as (k & Hk).
  destruct (kernel_imul_object (ard_kernel E (length (lower p)))
              (blr_kernel E (length (lower p) + 1) (length (lower p)) 1))
    as (kc & Hkc).
  unfold setup. rewrite Hkc, Hk.
  rewrite length_app, Nat.add_1_r. cbn [repeat set_last py_len].
  unfold bind, lift, log, modify, ret. cbn [fst snd].
  eexists. split; [reflexivity | ].
  unfold same_store. cbn [X y c incumbents time_func_eval trace
                          set_world add_event].
  rewrite <- !app_assoc, !filter_app. cbn. rewrite !app_nil_r.
  repeat split; reflexivity.
Qed.

(** Without a dimension [len(kernel)] on line 99 raises before any model
    is created. *)
Lemma setup_no_dimension rng0 st :
  lower p = [] -> setup E p rng0 st = (Raise TypeError, st).
Proof.
  intros Hdim. unfold setup. rewrite Hdim. reflexivity.
Qed.

(** *** The bookkeeping of an initial-design round *)

(** Run on a store of [n] records, lines 184-196 complete and add one
    record to each array.  The incumbent they record is a stored row, that
    is, an augmented point, with [s_max] appended. *)
Lemma record_initial_returns time_start t0 x s_t v cost n st :
  store_sizes n st ->
  exists st' best,
    record_initial E p time_start t0 x s_t v cost st = (Ret tt, st') /\
    X st' = X st ++ [x ++ [s_t]] /\ y st' = y st ++ [v] /\
    c st' = c st ++ [cost] /\
    In best (X st') /\
    incumbents st' = incumbents st ++ [best ++ [s_max p]].
Proof.
  intros (HX & Hy & Hc & Hi).
  unfold record_initial. py_unfold. unfold np_argmin.
  destruct (y st ++ [v]) as [| v0 ys] eqn:Hys;
    [now destruct (y st) | ]. cbn.
  assert (Hk : (argmin_from 0 v0 1 ys < length (X st ++ [x ++ [s_t]]))%nat).
  { pose proof (argmin_from_bound ys 0 v0 1 ltac:(lia)) as Hb.
    assert (Hl : length (v0 :: ys) = S n)
      by (rewrite <- Hys, length_app; cbn; lia).
    cbn in Hl. rewrite length_app. cbn. lia. }
  rewrite (py_get_nat _ _ Hk).
  destruct (nth_error (X st ++ [x ++ [s_t]]) (argmin_from 0 v0 1 ys))
    as [best | ] eqn:Hnth;
    [ | apply nth_error_None in Hnth; lia ].
  py_run.
  eexists _, best. split; [reflexivity | ]. cbn.
  apply nth_error_In in Hnth. repeat split; try reflexivity; assumption.
Qed.

(** *** Model-guided rounds *)

Lemma projections_app (t1 t2 : list event) :
  projections (t1 ++ t2) = projections t1 ++ projections t2.
Proof.
  induction t1 as [| e t1 IH]; [reflexivity | ].
  destruct e; cbn; now rewrite IH.
Qed.

(** A completed model-guided round has added one row, one value, one cost
    and one incumbent. *)
Lemma guided_round_inv time_start it st st' :
  guided_round E p time_start it st = (Ret tt, st') ->
  exists incumbent new_x new_y new_c,
    X st' = X st ++ [new_x] /\ y st' = y st ++ [new_y] /\
    c st' = c st ++ [new_c] /\
    incumbents st' = incumbents st ++ [incumbent].
Proof.
  unfold guided_round. py_run.
  unfold drop_last_column, np_concatenate_row.
  destruct (X st) as [| row rows] eqn:HX; py_run; [discriminate | ].
  match goal with |- context [py_get ?l ?k] => destruct (py_get l k) end;
    py_run; [ | discriminate].
  match goal with |- context [Nat.eqb ?a ?b] => destruct (Nat.eqb a b) end;
    py_run; [ | discriminate].
  intros Hret. inversion Hret; subst; clear Hret. cbn.
  eexists _, _, _, _. repeat split; reflexivity.
Qed.

(** With a non-empty store, a model-guided round asks for exactly one
    projection, onto [s_max], whatever happens later in the round. *)
Lemma guided_round_projects time_start it st :
  X st <> [] ->
  projections (trace (snd (guided_round E p time_start it st))) =
    projections (trace st) ++ [(ModelObjective, map (@removelast R) (X st), s_max p)].
Proof.
  intros HXne.
  unfold guided_round. py_run.
  unfold drop_last_column, np_concatenate_row.
  destruct (X st) as [| row rows] eqn:HX; [contradiction | ]. py_run.
  match goal with |- context [py_get ?l ?k] => destruct (py_get l k) end;
    py_run.
  - match goal with |- context [Nat.eqb ?a ?b] => destruct (Nat.eqb a b) end;
      py_run; rewrite !projections_app; cbn; now rewrite !app_nil_r.
  - rewrite !projections_app; cbn; now rewrite !app_nil_r.
Qed.

(** With an empty store, neither a model-guided round nor the
    finalization gets past [X[:, :-1]]. *)
Lemma guided_round_empty_store time_start it st :
  X st = [] ->
  exists st', guided_round E p time_start it st = (Raise IndexError, st') /\
              same_store st st'.
Proof.
  intros HX. unfold guided_round. py_run.
  unfold drop_last_column. rewrite HX. py_run.
  eexists. split; [reflexivity | ].
  unfold same_store. cbn. now rewrite HX.
Qed.

(** *** Finalization *)

Lemma finalize_empty_store st :
  X st = [] ->
  exists st', finalize E p st = (Raise IndexError, st') /\ same_store st st'.
Proof.
  intros HX. unfold finalize. py_run.
  unfold drop_last_column. rewrite HX. py_run.
  eexists. split; [reflexivity | ].
  unfold same_store. cbn. now rewrite HX.
Qed.

Lemma finalize_returns st raw v w' :
  X st <> [] ->
  projected_incumbent_estimation E ModelObjective
    (map (@removelast R) (X st)) 1
    (train E ModelObjective (X st) (y st) None (w st)) = ((raw, v), w') ->
  raw <> [] ->
  exists st',
    finalize E p st =
      (Ret {| x_opt := removelast (removelast raw ++ [s_max p]);
              trajectory := incumbents st ++ [removelast raw ++ [s_max p]];
              res_runtime := runtime st;
              res_overhead := time_overhead st;
              res_time_func_eval := time_func_eval st |}, st') /\
    incumbents st' = incumbents st ++ [removelast raw ++ [s_max p]] /\
    X st' = X st /\ y st' = y st /\ c st' = c st /\
    projections (trace st') =
      projections (trace st) ++ [(ModelObjective, map (@removelast R) (X st), 1)].
Proof.
  intros HXne Hproj Hraw.
  unfold finalize. py_unfold.
  unfold drop_last_column.
  destruct (X st) as [| row rows] eqn:HX; [contradiction | ].
  cbn in Hproj |- *. rewrite Hproj. cbn.
  unfold set_last. destruct raw as [| a raw']; [contradiction | ]. cbn.
  eexists. split; [reflexivity | ]. cbn.
  rewrite !projections_app. cbn. rewrite !app_nil_r, ?HX.
  repeat split; reflexivity.
Qed.

Lemma finalize_projects st :
  X st <> [] ->
  projections (trace (snd (finalize E p st))) =
    projections (trace st) ++
      [(ModelObjective, map (@removelast R) (X st), 1)].
Proof.
  intros HXne. unfold finalize. py_unfold. unfold drop_last_column.
  destruct (X st) as [| row rows] eqn:HX; [contradiction | ]. py_run.
  unfold set_last.
  match goal with
  | |- context [match ?l with [] => _ | _ :: _ => _ end] => destruct l; cbn
  end; rewrite !projections_app; cbn; now rewrite !app_nil_r.
Qed.

Lemma finalize_inv st r st' :
  finalize E p st = (Ret r, st') ->
  exists inc,
    incumbents st' = incumbents st ++ [inc] /\
    trajectory r = incumbents st ++ [inc] /\
    X st' = X st /\ y st' = y st /\ c st' = c st.
Proof.
  unfold finalize. py_unfold. unfold drop_last_column.
  destruct (X st) as [| row rows] eqn:HX; cbn; [discriminate | ].
  py_run. unfold set_last.
  match goal with
  | |- context [match ?l with [] => _ | _ :: _ => _ end] =>
      destruct l; cbn; [discriminate | ]
  end.
  intros Hret. inversion Hret; subst; clear Hret. cbn. rewrite ?HX.
  eexists. repeat split; reflexivity.
Qed.

(** *** The whole call *)

Lemma init_bookkeeping_returns st :
  init_bookkeeping st =
    (Ret tt,
     {| w := w st; trace := trace st;
        time_func_eval := []; time_overhead := [];
        incumbents := []; runtime := [];
        X := []; y := []; c := [] |}).
Proof. reflexivity. Qed.

Lemma asserts_fail st :
  (n_init p > num_iterations p)%Z \/ length (lower p) <> length (upper p) ->
  fabolas E p st = (Raise AssertionError, st).
Proof.
  intros Hviol. unfold fabolas.
  destruct (n_init p <=? num_iterations p)%Z eqn:Hle.
  - destruct Hviol as [Hgt | Hlen]; [apply Z.leb_le in Hle; lia | ].
    apply Nat.eqb_neq in Hlen.
    unfold bind at 1. cbn. unfold bind at 1. now rewrite Hlen.
  - reflexivity.
Qed.

(** C4: a violated precondition ([n_init > num_iterations], or bounds of
    different lengths) makes the call raise [AssertionError] with the state
    untouched: no collaborator has been called, so the objective function
    was not invoked and no model was created or trained. *)
Theorem precondition_violation_fails_first st :
  (n_init p > num_iterations p)%Z \/ length (lower p) <> length (upper p) ->
  fabolas E p st = (Raise AssertionError, st) /\
  objective_calls (trace (snd (fabolas E p st))) = objective_calls (trace st) /\
  filter is_model_event (trace (snd (fabolas E p st))) =
    filter is_model_event (trace st).
Proof.
  intros Hviol. rewrite (asserts_fail st Hviol). cbn. auto.
Qed.

(** The part of [fabolas] before the set-up: with the preconditions met it
    reads the clock, gets a random generator and empties the bookkeeping
    lists. *)
Lemma before_setup st :
  (n_init p <= num_iterations p)%Z ->
  length (lower p) = length (upper p) ->
  exists time_start rng0 st0,
    fabolas E p st =
      bind (setup E p rng0) (fun _ => run_rounds E p time_start rng0) st0 /\
    store_sizes 0 st0 /\
    trace st0 = trace st.
Proof.
  intros Hle Hlen.
  unfold fabolas.
  apply Z.leb_le in Hle. rewrite Hle.
  apply Nat.eqb_eq in Hlen. rewrite Hlen.
  cbn [assert_].
  rewrite (bind_ret_eq _ _ st tt st) by reflexivity.
  rewrite (bind_ret_eq _ _ st tt st) by reflexivity.
  destruct (time_time E (w st)) as [time_start w1] eqn:Htime.
  rewrite (bind_ret_eq _ _ st time_start (set_world w1 st))
    by (unfold lift; now rewrite Htime).
  set (st1 := set_world w1 st).
  assert (Hrng : exists rng0 st2,
    match rng p with
    | Some r => ret r
    | None => lift (fresh_rng E)
    end st1 = (Ret rng0, st2) /\
    trace st2 = trace st).
  { destruct (rng p) as [r | ].
    - now exists r, st1.
    - unfold lift. destruct (fresh_rng E (w st1)) as [r w2].
      now exists r, (set_world w2 st1). }
  destruct Hrng as (rng0 & st2 & Hrng & Htr2).
  rewrite (bind_ret_eq _ _ _ _ _ Hrng).
  rewrite (bind_ret_eq _ _ _ _ _ (init_bookkeeping_returns st2)).
  eexists time_start, rng0, _. split; [reflexivity | ].
  split; [repeat split; reflexivity | exact Htr2].
Qed.

(** The part of [fabolas] before the loops: with the preconditions met and
    at least one dimension it returns, leaving an empty store and
    trajectory and no objective call. *)
Lemma prologue_returns st :
  (n_init p <= num_iterations p)%Z ->
  length (lower p) = length (upper p) ->
  lower p <> [] ->
  exists time_start rng0 st0,
    fabolas E p st = run_rounds E p time_start rng0 st0 /\
    store_sizes 0 st0 /\
    objective_calls (trace st0) = objective_calls (trace st).
Proof.
  intros Hle Hlen Hdim.
  destruct (before_setup st Hle Hlen)
    as (time_start & rng0 & st0 & Hrun & Hsizes & Htr).
  destruct (setup_returns rng0 st0 Hdim)
    as (st1 & Hsetup & (HX & Hy & Hc & Hi) & _ & Hobj & _).
  exists time_start, rng0, st1.
  rewrite Hrun, (bind_ret_eq _ _ _ _ _ Hsetup).
  split; [reflexivity | ].
  destruct Hsizes as (HX0 & Hy0 & Hc0 & Hi0).
  split.
  - unfold store_sizes. now rewrite HX, Hy, Hc, Hi.
  - unfold objective_calls. now rewrite Hobj, Htr.
Qed.

(** With the preconditions met and no dimension, the call stops at
    [len(kernel)]: nothing has been created, evaluated or recorded. *)
Lemma no_dimension_raises st :
  (n_init p <= num_iterations p)%Z ->
  length (lower p) = length (upper p) ->
  lower p = [] ->
  exists st',
    fabolas E p st = (Raise TypeError, st') /\
    store_sizes 0 st' /\
    trace st' = trace st.
Proof.
  intros Hle Hlen Hdim.
  destruct (before_setup st Hle Hlen)
    as (time_start & rng0 & st0 & Hrun & Hsizes & Htr).
  exists st0. rewrite Hrun.
  split; [ | now split].
  apply bind_raise_eq. now apply setup_no_dimension.
Qed.

(** With [n_init >= 1] the loops stop in their first round. *)
Lemma run_rounds_first_round time_start rng0 st :
  (1 <= n_init p)%Z ->
  exists st' x,
    run_rounds E p time_start rng0 st = (Raise TypeError, st') /\
    same_store st st' /\
    trace st' = trace st ++
      [EvInitDesign (lower p) (upper p);
       EvObjective x (IZR (init_fidelity (s_max p) 0))].
Proof.
  intros Hpos. unfold run_rounds. rewrite (range_pos _ Hpos).
  destruct (init_round_raises time_start rng0 0 st)
    as (st' & x & Hround & Hsame & Htr & _).
  exists st', x. split; [ | now split].
  apply bind_raise_eq. rewrite for_each_cons. now apply bind_raise_eq.
Qed.

Lemma objective_calls_snoc (t : list event) (e1 : event) x s :
  is_objective_call e1 = false ->
  objective_calls (t ++ [e1; EvObjective x s]) = S (objective_calls t).
Proof.
  intros He1. unfold objective_calls.
  rewrite filter_app, length_app. cbn. rewrite He1. cbn. lia.
Qed.

Lemma store_sizes_0 st :
  store_sizes 0 st ->
  X st = [] /\ y st = [] /\ c st = [] /\ incumbents st = [].
Proof.
  intros (HX & Hy & Hc & Hi).
  repeat split; now apply length_zero_iff_nil.
Qed.

(** Whatever the arguments, [fabolas] does not return a result: a violated
    precondition, [len(kernel)] without a dimension, the first
    initial-design round, or [X[:, :-1]] on the empty store stops it. *)
Lemma fabolas_always_raises st :
  exists e st', fabolas E p st = (Raise e, st').
Proof.
  destruct (Z.leb_spec (n_init p) (num_iterations p)) as [Hle | Hgt];
    [ | exists AssertionError, st;
        apply asserts_fail; left; lia ].
  destruct (Nat.eq_dec (length (lower p)) (length (upper p))) as [Hlen | Hlen];
    [ | exists AssertionError, st;
        apply asserts_fail; now right ].
  destruct (list_eq_dec Req_dec_T (lower p) []) as [Hdim | Hdim'];
    [ destruct (no_dimension_raises st Hle Hlen Hdim) as (st' & Hr & _);
      now exists TypeError, st' | ].
  destruct (prologue_returns st Hle Hlen Hdim')
    as (time_start & rng0 & st0 & Hrun & Hsizes & _).
  rewrite Hrun.
  destruct (Z.le_gt_cases 1 (n_init p)) as [Hpos | Hnone].
  - destruct (run_rounds_first_round time_start rng0 st0 Hpos)
      as (st' & x & Hr & _).
    now exists TypeError, st'.
  - apply store_sizes_0 in Hsizes. destruct Hsizes as (HX & _).
    unfold run_rounds. rewrite range_nonpos by lia. cbn [for_each].
    rewrite (bind_ret_eq _ _ st0 tt st0) by reflexivity.
    rewrite (bind_ret_eq _ _ st0 st0 st0) by reflexivity.
    rewrite HX.
    rewrite (bind_ret_eq _ _ st0 [] st0) by reflexivity.
    rewrite (bind_ret_eq _ _ st0 tt (set_X [] st0)) by reflexivity.
    destruct (range2 (n_init p) (num_iterations p)) as [| it its].
    + cbn [for_each].
      rewrite (bind_ret_eq _ _ _ tt (set_X [] st0)) by reflexivity.
      destruct (finalize_empty_store (set_X [] st0) eq_refl) as (st' & Hf & _).
      now exists IndexError, st'.
    + destruct (guided_round_empty_store time_start it (set_X [] st0) eq_refl)
        as (st' & Hg & _).
      exists IndexError, st'.
      apply bind_raise_eq. rewrite for_each_cons. now apply bind_raise_eq.
Qed.

(** C2, amended: with [n_init >= 1], both preconditions met and at least
    one dimension, the call ends in the first initial-design round: the
    objective function has been invoked exactly once, as the last
    collaborator call, [transform(s)] with its single argument raises
    [TypeError], and the observation store and the trajectory are still
    empty. *)
Theorem first_round_type_error st :
  (1 <= n_init p)%Z ->
  (n_init p <= num_iterations p)%Z ->
  length (lower p) = length (upper p) ->
  lower p <> [] ->
  exists st' t x s,
    fabolas E p st = (Raise TypeError, st') /\
    X st' = [] /\ y st' = [] /\ c st' = [] /\ incumbents st' = [] /\
    trace st' = t ++ [EvObjective x s] /\
    objective_calls (trace st') = S (objective_calls (trace st)).
Proof.
  intros Hpos Hle Hlen Hdim.
  destruct (prologue_returns st Hle Hlen Hdim)
    as (time_start & rng0 & st0 & Hrun & Hsizes & Hcalls).
  destruct (run_rounds_first_round time_start rng0 st0 Hpos)
    as (st' & x & Hr & (HX & Hy & Hc & Hi) & Htr).
  apply store_sizes_0 in Hsizes. destruct Hsizes as (HX0 & Hy0 & Hc0 & Hi0).
  exists st', (trace st0 ++ [EvInitDesign (lower p) (upper p)]), x,
    (IZR (init_fidelity (s_max p) 0)).
  rewrite Hrun, Hr, HX, Hy, Hc, Hi, Htr, <- app_assoc.
  repeat split; try assumption.
  rewrite objective_calls_snoc by reflexivity. now rewrite Hcalls.
Qed.

(** *** Claims about bookkeeping, the final incumbent and the projections *)

Lemma round_step_sizes time_start rng0 n st st' :
  store_sizes n st ->
  round_step E p time_start rng0 st st' ->
  store_sizes (S n) st'.
Proof.
  intros (HX & Hy & Hc & Hi) Hstep.
  destruct Hstep as [i st st' Hinit | it st st' Hguided].
  - destruct (init_round_raises time_start rng0 i st) as (st1 & x & Hr & _).
    rewrite Hr in Hinit. discriminate.
  - destruct (guided_round_inv _ _ _ _ Hguided)
      as (inc & new_x & new_y & new_c & HX' & Hy' & Hc' & Hi').
    unfold store_sizes.
    rewrite HX', Hy', Hc', Hi', !length_app. cbn. lia.
Qed.

(** The lengths kept by completed rounds: starting from a store of [n]
    records and a trajectory of [n] incumbents, after [k] completed rounds
    [X], [y], [c] and the trajectory all have length [n + k].  A
    finalization that returns adds one incumbent to the trajectory and
    nothing to the store; and the bookkeeping block of an initial-design
    round, run on that state, adds exactly one record to each array and one
    incumbent.  An initial-design round itself never completes
    ([init_round_raises]), so the rounds counted here are model-guided
    ones. *)
Lemma completed_rounds_store_sizes time_start rng0 n k st st' :
  store_sizes n st ->
  completed_rounds E p time_start rng0 k st st' ->
  store_sizes (n + k) st' /\
  (forall r st'',
     finalize E p st' = (Ret r, st'') ->
     length (trajectory r) = S (n + k) /\
     length (incumbents st'') = S (n + k) /\
     length (X st'') = (n + k)%nat /\ length (y st'') = (n + k)%nat /\
     length (c st'') = (n + k)%nat) /\
  (forall t0 x s_t v cost,
     exists st'',
       record_initial E p time_start t0 x s_t v cost st' = (Ret tt, st'') /\
       store_sizes (S (n + k)) st'').
Proof.
  intros Hn Hrounds.
  assert (Hsizes : store_sizes (n + k) st').
  { induction Hrounds as [st | k st st1 st2 Hrounds IH Hstep].
    - now rewrite Nat.add_0_r.
    - rewrite Nat.add_succ_r.
      eapply round_step_sizes; [apply IH; assumption | eassumption]. }
  split; [assumption | split].
  - intros r st'' Hfin.
    destruct (finalize_inv _ _ _ Hfin) as (inc & Hi & Htraj & HX & Hy & Hc).
    destruct Hsizes as (HX' & Hy' & Hc' & Hi').
    rewrite Htraj, Hi, HX, Hy, Hc, !length_app. cbn. lia.
  - intros t0 x s_t v cost.
    destruct (record_initial_returns time_start t0 x s_t v cost _ _ Hsizes)
      as (st'' & best & Hr & HX & Hy & Hc & _ & Hi).
    exists st''. split; [assumption | ].
    destruct Hsizes as (HX' & Hy' & Hc' & Hi').
    unfold store_sizes. rewrite HX, Hy, Hc, Hi, !length_app. cbn. lia.
Qed.

(** C6: when the store is not empty and the projection returns a
    non-empty vector [raw], the finalization returns; the incumbent it
    appends is [raw] with its last coordinate overwritten by [s_max],
    whatever that coordinate was, and [x_opt] is that incumbent without its
    last coordinate. *)
Theorem final_incumbent_at_s_max st raw v w' :
  X st <> [] ->
  projected_incumbent_estimation E ModelObjective
    (map (@removelast R) (X st)) 1
    (train E ModelObjective (X st) (y st) None (w st)) = ((raw, v), w') ->
  raw <> [] ->
  exists r st' inc,
    finalize E p st = (Ret r, st') /\
    incumbents st' = incumbents st ++ [inc] /\
    trajectory r = incumbents st ++ [inc] /\
    inc = removelast raw ++ [s_max p] /\
    last inc 0 = s_max p /\
    length inc = length raw /\
    x_opt r = removelast inc.
Proof.
  intros HX Hproj Hraw.
  destruct (finalize_returns st raw v w' HX Hproj Hraw)
    as (st' & Hfin & Hi & _).
  eexists _, st', (removelast raw ++ [s_max p]).
  split; [exact Hfin | ]. cbn.
  repeat split; try assumption.
  - apply last_last.
  - rewrite length_app. cbn.
    destruct raw as [| a raw']; [contradiction | ].
    pose proof (app_removelast_last 0 Hraw) as Hsplit.
    rewrite Hsplit at 2. rewrite length_app. cbn. reflexivity.
Qed.

(** On a non-empty store a model-guided round calls the projection on the
    world left by the two trainings, with [proj_value = s_max], and appends
    the vector it returns to the trajectory, whatever happens later in the
    round. *)
Lemma guided_round_calls_projection time_start it st :
  X st <> [] ->
  exists inc v w',
    projected_incumbent_estimation E ModelObjective
      (map (@removelast R) (X st)) (s_max p)
      (train E ModelCost (X st) (c st) (Some true)
         (train E ModelObjective (X st) (y st) (Some true)
            (snd (time_time E (w st))))) = ((inc, v), w') /\
    incumbents (snd (guided_round E p time_start it st)) =
      incumbents st ++ [inc] /\
    projections (trace (snd (guided_round E p time_start it st))) =
      projections (trace st) ++
        [(ModelObjective, map (@removelast R) (X st), s_max p)].
Proof.
  intros HXne.
  unfold guided_round. py_unfold.
  destruct (time_time E (w st)) as [t0 w0]. cbn.
  unfold drop_last_column, np_concatenate_row.
  destruct (X st) as [| row rows] eqn:HX; [contradiction | ]. cbn.
  match goal with
  | |- context [projected_incumbent_estimation E ?m ?x ?v ?w1] =>
      destruct (projected_incumbent_estimation E m x v w1)
        as [[inc v'] w'] eqn:Hproj
  end.
  exists inc, v', w'. split; [reflexivity | ].
  py_run.
  match goal with |- context [py_get ?l ?k] => destruct (py_get l k) end;
    py_run.
  - match goal with |- context [Nat.eqb ?a ?b] => destruct (Nat.eqb a b) end;
      py_run; rewrite !projections_app; cbn; rewrite !app_nil_r;
      split; reflexivity.
  - rewrite !projections_app; cbn; rewrite !app_nil_r. split; reflexivity.
Qed.

(** On a non-empty store the finalization calls the projection on the
    world left by the training, with [proj_value = 1]; it ends in the world
    that call returns, and appends the returned vector, with [s_max] as its
    last coordinate, when that vector is not empty. *)
Lemma finalize_calls_projection st :
  X st <> [] ->
  exists raw v w',
    projected_incumbent_estimation E ModelObjective
      (map (@removelast R) (X st)) 1
      (train E ModelObjective (X st) (y st) None (w st)) = ((raw, v), w') /\
    w (snd (finalize E p st)) = w' /\
    (raw <> [] ->
     incumbents (snd (finalize E p st)) =
       incumbents st ++ [removelast raw ++ [s_max p]]) /\
    projections (trace (snd (finalize E p st))) =
      projections (trace st) ++
        [(ModelObjective, map (@removelast R) (X st), 1)].
Proof.
  intros HXne.
  unfold finalize. py_unfold. unfold drop_last_column.
  destruct (X st) as [| row rows] eqn:HX; [contradiction | ]. cbn.
  match goal with
  | |- context [projected_incumbent_estimation E ?m ?x ?v ?w1] =>
      destruct (projected_incumbent_estimation E m x v w1)
        as [[raw v'] w'] eqn:Hproj
  end.
  exists raw, v', w'. split; [reflexivity | ].
  cbn. unfold set_last.
  destruct raw as [| a raw']; cbn;
    rewrite !projections_app; cbn; rewrite !app_nil_r;
    (split; [reflexivity | split; [ | reflexivity]]).
  - intros Hraw. contradiction.
  - intros _. reflexivity.
Qed.

Lemma guided_round_empty_store_projections time_start it st :
  X st = [] ->
  fst (guided_round E p time_start it st) = Raise IndexError /\
  projections (trace (snd (guided_round E p time_start it st))) =
    projections (trace st).
Proof.
  intros HX. unfold guided_round. py_run.
  unfold drop_last_column. rewrite HX. py_run.
  split; [reflexivity | ].
  rewrite !projections_app. cbn. now rewrite !app_nil_r.
Qed.

Lemma finalize_empty_store_projections st :
  X st = [] ->
  fst (finalize E p st) = Raise IndexError /\
  projections (trace (snd (finalize E p st))) = projections (trace st).
Proof.
  intros HX. unfold finalize. py_run.
  unfold drop_last_column. rewrite HX. py_run.
  split; [reflexivity | ].
  rewrite !projections_app. cbn. now rewrite !app_nil_r.
Qed.

(** C10, amended.  On an empty store, a model-guided round and the
    finalization both raise [IndexError] at [X[:, :-1]] and call no
    projection.  On a non-empty store, a model-guided round calls the
    projection exactly once, with [proj_value = s_max], and records the
    vector it returns; the finalization calls it exactly once, on the same
    configurations, with [proj_value = 1], and records the returned vector
    with its last coordinate set to [s_max].  When [s_max <> 1] the two
    targets differ, and so does every configuration extended by them. *)
Theorem projection_calls_by_phase time_start it st :
  (X st = [] ->
   (fst (guided_round E p time_start it st) = Raise IndexError /\
    projections (trace (snd (guided_round E p time_start it st))) =
      projections (trace st)) /\
   (fst (finalize E p st) = Raise IndexError /\
    projections (trace (snd (finalize E p st))) = projections (trace st))) /\
  (X st <> [] ->
   (exists inc v w',
      projected_incumbent_estimation E ModelObjective
        (map (@removelast R) (X st)) (s_max p)
        (train E ModelCost (X st) (c st) (Some true)
           (train E ModelObjective (X st) (y st) (Some true)
              (snd (time_time E (w st))))) = ((inc, v), w') /\
      incumbents (snd (guided_round E p time_start it st)) =
        incumbents st ++ [inc] /\
      projections (trace (snd (guided_round E p time_start it st))) =
        projections (trace st) ++
          [(ModelObjective, map (@removelast R) (X st), s_max p)]) /\
   (exists raw v w',
      projected_incumbent_estimation E ModelObjective
        (map (@removelast R) (X st)) 1
        (train E ModelObjective (X st) (y st) None (w st)) = ((raw, v), w') /\
      w (snd (finalize E p st)) = w' /\
      (raw <> [] ->
       incumbents (snd (finalize E p st)) =
         incumbents st ++ [removelast raw ++ [s_max p]]) /\
      projections (trace (snd (finalize E p st))) =
        projections (trace st) ++
          [(ModelObjective, map (@removelast R) (X st), 1)])) /\
  (s_max p <> 1 ->
   forall x : list R, x ++ [s_max p] <> x ++ [1]).
Proof.
  split; [ | split].
  - intros HX. split.
    + now apply guided_round_empty_store_projections.
    + now apply finalize_empty_store_projections.
  - intros HX. split.
    + now apply guided_round_calls_projection.
    + now apply finalize_calls_projection.
  - intros Hne x Heq. apply app_inv_head in Heq. congruence.
Qed.

(** *** The loops and the completed rounds *)

Lemma completed_rounds_cons time_start rng0 k st st1 st2 :
  round_step E p time_start rng0 st st1 ->
  completed_rounds E p time_start rng0 k st1 st2 ->
  completed_rounds E p time_start rng0 (S k) st st2.
Proof.
  intros Hstep Hrounds.
  induction Hrounds as [st1 | k st1 st2 st3 Hrounds IH Hlast].
  - eapply rounds_more; [apply rounds_none | assumption].
  - eapply rounds_more; [apply IH; assumption | assumption].
Qed.

(** A guided loop that runs to its end has completed one round per index. *)
Lemma guided_loop_completed time_start rng0 (its : list Z) :
  forall st st',
    for_each its (guided_round E p time_start) st = (Ret tt, st') ->
    completed_rounds E p time_start rng0 (length its) st st'.
Proof.
  induction its as [| it its IH]; intros st st' Hloop.
  - cbn in Hloop. inversion Hloop; subst. apply rounds_none.
  - rewrite for_each_cons in Hloop.
    apply bind_inv_ret in Hloop. destruct Hloop as ([] & st1 & Hround & Hrest).
    cbn [length]. eapply completed_rounds_cons.
    + eapply step_guided. exact Hround.
    + now apply IH.
Qed.

End LoopFacts.

(** The scenario with [n_init = 5] and [num_iterations = 3]. *)
Lemma precondition_violation_witness :
  fabolas Scenario.E (Scenario.scenario 5 3) Scenario.start =
    (Raise AssertionError, Scenario.start) /\
  objective_calls
    (trace (snd (fabolas Scenario.E (Scenario.scenario 5 3) Scenario.start))) =
    objective_calls (trace Scenario.start) /\
  filter is_model_event
    (trace (snd (fabolas Scenario.E (Scenario.scenario 5 3) Scenario.start))) =
    filter is_model_event (trace Scenario.start).
Proof.
  apply (precondition_violation_fails_first Scenario.E (Scenario.scenario 5 3)).
  left. cbn. lia.
Defined.

(** The scenario with [n_init = 2] and [num_iterations = 2]. *)
Lemma first_round_type_error_witness :
  exists st' t x s,
    fabolas Scenario.E (Scenario.scenario 2 2) Scenario.start =
      (Raise TypeError, st') /\
    X st' = [] /\ y st' = [] /\ c st' = [] /\ incumbents st' = [] /\
    trace st' = t ++ [EvObjective x s] /\
    objective_calls (trace st') = S (objective_calls (trace Scenario.start)).
Proof.
  apply (first_round_type_error Scenario.E (Scenario.scenario 2 2));
    cbn; [lia | lia | reflexivity | discriminate].
Defined.

(** C2, as stated, fails without a dimension: with empty bounds and
    [n_init = 1] both preconditions hold, and the call raises [TypeError]
    at [len(kernel)] with no collaborator call at all, so the objective
    function has not been invoked. *)
Lemma no_dimension_no_evaluation :
  (1 <= n_init Variants.no_dimension)%Z /\
  (n_init Variants.no_dimension <= num_iterations Variants.no_dimension)%Z /\
  length (lower Variants.no_dimension) = length (upper Variants.no_dimension) /\
  exists st',
    fabolas Scenario.E Variants.no_dimension Scenario.start =
      (Raise TypeError, st') /\
    trace st' = [] /\
    objective_calls (trace st') = 0%nat.
Proof.
  repeat split; try (cbn; lia).
  eexists. split; [reflexivity | split; reflexivity].
Qed.

(** One model-guided round on a store of one observation, then the
    finalization: two records, then a trajectory of three. *)
Lemma completed_rounds_store_sizes_witness :
  store_sizes 1 Scenario.one_observation /\
  completed_rounds Scenario.E (Scenario.scenario 1 2) 0 tt 1
    Scenario.one_observation Scenario.after_guided /\
  store_sizes 2 Scenario.after_guided /\
  (exists r st'',
     finalize Scenario.E (Scenario.scenario 1 2) Scenario.after_guided =
       (Ret r, st'') /\
     length (trajectory r) = 3%nat) /\
  (exists st'',
     record_initial Scenario.E (Scenario.scenario 1 2) 0 0 [0; 0] 0 1 1
       Scenario.after_guided = (Ret tt, st'') /\
     store_sizes 3 st'').
Proof.
  assert (Hn : store_sizes 1 Scenario.one_observation)
    by (repeat split; reflexivity).
  assert (Hrounds : completed_rounds Scenario.E (Scenario.scenario 1 2) 0 tt 1
                      Scenario.one_observation Scenario.after_guided).
  { eapply rounds_more; [apply rounds_none | ].
    apply (step_guided _ _ _ _ 1%Z). reflexivity. }
  destruct (completed_rounds_store_sizes Scenario.E (Scenario.scenario 1 2)
              0 tt 1 1 _ _ Hn Hrounds) as (Hsizes & Hfin & Hrec).
  split; [exact Hn | split; [exact Hrounds | split; [exact Hsizes | split]]].
  - eexists _, _. split; [reflexivity | ].
    eapply Hfin. reflexivity.
  - apply Hrec.
Defined.

Lemma final_incumbent_at_s_max_witness :
  exists r st' inc,
    finalize Scenario.E (Scenario.scenario 1 1) Scenario.one_observation =
      (Ret r, st') /\
    incumbents st' = incumbents Scenario.one_observation ++ [inc] /\
    trajectory r = incumbents Scenario.one_observation ++ [inc] /\
    inc = removelast [0; 0; 1] ++ [256] /\
    last inc 0 = 256 /\
    length inc = length [0; 0; 1] /\
    x_opt r = removelast inc.
Proof.
  apply (final_incumbent_at_s_max Scenario.E (Scenario.scenario 1 1)
           Scenario.one_observation [0; 0; 1] 0 0%nat);
    [discriminate | reflexivity | discriminate].
Defined.

(** On the store of one observation: the model-guided round records the
    vector the projection returns for [proj_value = 256], the finalization
    the one it returns for [proj_value = 1] with 256 as last coordinate. *)
Lemma projection_calls_by_phase_witness :
  incumbents
    (snd (guided_round Scenario.E (Scenario.scenario 1 2) 0 1
            Scenario.one_observation)) =
    incumbents Scenario.one_observation ++ [[0; 0; 256]] /\
  projections
    (trace (snd (guided_round Scenario.E (Scenario.scenario 1 2) 0 1
                   Scenario.one_observation))) =
    [(ModelObjective, [[0; 0]], 256)] /\
  projections
    (trace (snd (finalize Scenario.E (Scenario.scenario 1 2)
                   Scenario.one_observation))) =
    [(ModelObjective, [[0; 0]], 1)].
Proof.
  destruct (projection_calls_by_phase Scenario.E (Scenario.scenario 1 2) 0 1
              Scenario.one_observation) as (_ & Hfull & _).
  destruct (Hfull ltac:(discriminate))
    as ((inc & v & w' & Hproj & Hinc & Hguided) &
        (raw & v1 & w1 & _ & _ & _ & Hfinal)).
  cbn in Hproj. inversion Hproj; subst; clear Hproj.
  split; [exact Hinc | split; [exact Hguided | exact Hfinal]].
Defined.

(** C5, on the scenario with [n_init = 2]: the call evaluates the
    objective in round 0, records the duration of that evaluation, and
    raises [TypeError]; no record has been added to [X], [y] or [c] and no
    incumbent to the trajectory.  The round the claim counts has run, and
    the lengths the claim gives for it (one record, one incumbent) are not
    reached. *)
Theorem initial_round_adds_no_record :
  exists st',
    fabolas Scenario.E (Scenario.scenario 2 2) Scenario.start =
      (Raise TypeError, st') /\
    objective_calls (trace st') = 1%nat /\
    length (time_func_eval st') = 1%nat /\
    length (X st') = 0%nat /\ length (y st') = 0%nat /\
    length (c st') = 0%nat /\
    length (incumbents st') = 0%nat.
Proof.
  eexists. split; [reflexivity | ]. cbn. repeat split; reflexivity.
Qed.

(** C1, on the scenario with [n_init = 2]: the first initial-design round
    draws the configuration [[0; 0]] and evaluates the objective at it, and
    the call then raises [TypeError] with [X], [y] and [c] empty: the
    augmented point, the value and the cost of that round have not been
    appended. *)
Theorem initial_round_appends_nothing :
  exists st' t,
    fabolas Scenario.E (Scenario.scenario 2 2) Scenario.start =
      (Raise TypeError, st') /\
    trace st' = t ++ [EvObjective [0; 0] (IZR (init_fidelity 256 0))] /\
    X st' = [] /\ y st' = [] /\ c st' = [].
Proof.
  eexists _, _. split; [reflexivity | ]. cbn.
  split; [ | repeat split; reflexivity].
  match goal with
  | |- ?a :: ?b :: ?c :: ?d :: ?e = _ => instantiate (1 := [a; b; c; d])
  end.
  reflexivity.
Qed.

(** C7, on the same scenario: the call raises in the first initial-design
    round with an empty trajectory, so no initial incumbent is recorded.
    The bookkeeping block itself, run after one observation of the
    two-dimensional configuration [[0; 0]] with transformed fidelity 0,
    records [[0; 0; 0; 256]]: the stored augmented point with [s_max]
    appended, four coordinates where the configuration at [s_max] has
    three. *)
Theorem initial_incumbent_not_recorded :
  (exists st',
     fabolas Scenario.E (Scenario.scenario 2 2) Scenario.start =
       (Raise TypeError, st') /\
     incumbents st' = []) /\
  (exists st',
     record_initial Scenario.E (Scenario.scenario 2 2) 0 0 [0; 0] 0 3 4
       Scenario.start = (Ret tt, st') /\
     X st' = [[0; 0; 0]] /\
     incumbents st' = [[0; 0; 0; 256]]).
Proof.
  split.
  - eexists. split; reflexivity.
  - eexists. split; [reflexivity | split; reflexivity].
Qed.

(** *** The initial-design schedule *)

Lemma init_fidelity_divisor (s_max : R) (i : Z) (r d : Z) :
  (i mod 4 = r)%Z -> nth (Z.to_nat r) subsets 0%Z = d ->
  init_fidelity s_max i = py_int (s_max / IZR d).
Proof.
  intros Hr Hd. unfold init_fidelity. cbn [length subsets Z.of_nat].
  change (Z.pos (Pos.of_succ_nat 3)) with 4%Z.
  now rewrite Hr, Hd.
Qed.

Lemma init_fidelity_256_0 : init_fidelity 256 0 = 1%Z.
Proof.
  rewrite (init_fidelity_divisor 256 0 0 256) by reflexivity.
  replace (256 / 256) with (IZR 1) by lra. apply py_int_IZR.
Qed.

Lemma init_fidelity_256_1 : init_fidelity 256 1 = 2%Z.
Proof.
  rewrite (init_fidelity_divisor 256 1 1 128) by reflexivity.
  replace (256 / 128) with (IZR 2) by lra. apply py_int_IZR.
Qed.

(** C8, as stated, fails for [s_max = 256]: the fidelities of rounds 0 and 1
    are 1 and 2, so no descending schedule of fidelities is being cycled. *)
Lemma no_descending_fidelity_schedule :
  ~ exists schedule : list Z,
      descending schedule /\ cycles_schedule 256 schedule.
Proof.
  intros (schedule & Hdesc & Hcyc).
  pose proof (Hcyc 0%Z ltac:(lia)) as H0.
  pose proof (Hcyc 1%Z ltac:(lia)) as H1.
  rewrite init_fidelity_256_0 in H0. rewrite init_fidelity_256_1 in H1.
  destruct schedule as [| a [| b rest]].
  - cbn in H0. discriminate.
  - cbn in H0, H1. congruence.
  - assert (Hm0 : (0 mod Z.of_nat (length (a :: b :: rest)) = 0)%Z)
      by (apply Z.mod_small; cbn [length]; lia).
    assert (Hm1 : (1 mod Z.of_nat (length (a :: b :: rest)) = 1)%Z)
      by (apply Z.mod_small; cbn [length]; lia).
    rewrite Hm0 in H0. rewrite Hm1 in H1.
    change (Z.to_nat 1) with 1%nat in H1. cbn [nth Z.to_nat] in H0, H1.
    specialize (Hdesc 0%nat 1%nat). cbn [nth length] in Hdesc.
    assert (b <= a)%Z by (apply Hdesc; lia). lia.
Qed.

(** C8, amended: the schedule [256, 128, 64, 32] is a descending list of
    divisors.  Round [i] uses the fidelity [int(s_max / d)] with [d] the
    entry [i mod 4] of that list, so the fidelities repeat with period 4
    and, for [s_max >= 0], do not decrease within one pass. *)
Theorem init_fidelity_cycles_divisors (s_max : R) (i : Z) :
  0 <= s_max -> (0 <= i)%Z ->
  descending subsets /\
  init_fidelity s_max i =
    py_int (s_max / IZR (nth (Z.to_nat (i mod 4)) subsets 0%Z)) /\
  init_fidelity s_max (i + 4) = init_fidelity s_max i /\
  ((i mod 4 < 3)%Z ->
   (init_fidelity s_max i <= init_fidelity s_max (i + 1))%Z).
Proof.
  intros Hs Hi. split; [ | split; [ | split]].
  - intros j k Hjk. cbn [subsets length] in *.
    destruct j as [| [| [| [| j]]]], k as [| [| [| [| k]]]]; cbn; lia.
  - now apply (init_fidelity_divisor s_max i (i mod 4)).
  - assert (Hm : ((i + 4) mod 4 = i mod 4)%Z).
    { replace (i + 4)%Z with (i + 1 * 4)%Z by lia. apply Z_mod_plus_full. }
    rewrite (init_fidelity_divisor s_max (i + 4) (i mod 4) _ Hm eq_refl).
    now rewrite (init_fidelity_divisor s_max i (i mod 4) _ eq_refl eq_refl).
  - intros Hr.
    pose proof (Z.mod_pos_bound i 4 ltac:(lia)) as Hb.
    assert (Hnext : ((i + 1) mod 4 = i mod 4 + 1)%Z).
    { rewrite <- Z.add_mod_idemp_l by lia. apply Z.mod_small. lia. }
    assert (Hcases : (i mod 4 = 0 \/ i mod 4 = 1 \/ i mod 4 = 2)%Z) by lia.
    destruct Hcases as [Hc | [Hc | Hc]]; rewrite Hc in Hnext.
    + rewrite (init_fidelity_divisor s_max i 0 256 Hc eq_refl).
      rewrite (init_fidelity_divisor s_max (i + 1) 1 128 Hnext eq_refl).
      apply py_int_mono_nonneg; lra.
    + rewrite (init_fidelity_divisor s_max i 1 128 Hc eq_refl).
      rewrite (init_fidelity_divisor s_max (i + 1) 2 64 Hnext eq_refl).
      apply py_int_mono_nonneg; lra.
    + rewrite (init_fidelity_divisor s_max i 2 64 Hc eq_refl).
      rewrite (init_fidelity_divisor s_max (i + 1) 3 32 Hnext eq_refl).
      apply py_int_mono_nonneg; lra.
Qed.

Lemma init_fidelity_cycles_divisors_witness :
  descending subsets /\
  init_fidelity 256 1 =
    py_int (256 / IZR (nth (Z.to_nat (1 mod 4)) subsets 0%Z)) /\
  init_fidelity 256 (1 + 4) = init_fidelity 256 1 /\
  ((1 mod 4 < 3)%Z ->
   (init_fidelity 256 1 <= init_fidelity 256 (1 + 1))%Z).
Proof.
  apply (init_fidelity_cycles_divisors 256 1); [lra | lia].
Defined.

End RunFacts.

(* ===================================================================== *)
(** ** Further properties of the loop *)
(* ===================================================================== *)

Module LoopExtras.
Import Numeric NumericFacts Run RunFacts.
Local Open Scope py_scope.

(** *** The initial fidelities *)

Lemma subsets_entry (i : Z) :
  exists d, nth (Z.to_nat (i mod 4)) subsets 0%Z = d /\
            (d = 256 \/ d = 128 \/ d = 64 \/ d = 32)%Z.
Proof.
  pose proof (Z.mod_pos_bound i 4 ltac:(lia)) as Hb.
  assert (Hc : (i mod 4 = 0 \/ i mod 4 = 1 \/ i mod 4 = 2 \/ i mod 4 = 3)%Z)
    by lia.
  destruct Hc as [Hc | [Hc | [Hc | Hc]]]; rewrite Hc; eexists;
    (split; [reflexivity | ]); auto.
Qed.

(** X4: for [s_max >= 0], read as the float64 value the division converts
    the argument to, every initial-design fidelity is a whole number
    between 0 and [s_max / 32]; it is more than [s_max / 256 - 1]. *)
Theorem init_fidelity_bounds (s_max : R) (i : Z) :
  0 <= s_max ->
  (0 <= init_fidelity s_max i)%Z /\
  IZR (init_fidelity s_max i) <= s_max / 32 /\
  s_max / 256 - 1 < IZR (init_fidelity s_max i).
Proof.
  intros Hs.
  destruct (subsets_entry i) as (d & Hd & Hcases).
  rewrite (init_fidelity_divisor s_max i (i mod 4) d eq_refl Hd).
  assert (Hq : s_max / 256 <= s_max / IZR d <= s_max / 32)
    by (destruct Hcases as [-> | [-> | [-> | ->]]]; lra).
  rewrite py_int_nonneg by lra.
  destruct (Int_part_bounds (s_max / IZR d)) as [Hlo Hhi].
  split; [ | lra].
  rewrite <- (Int_part_IZR 0). apply Int_part_mono. lra.
Qed.

Lemma init_fidelity_bounds_witness :
  (0 <= init_fidelity 100 2)%Z /\
  IZR (init_fidelity 100 2) <= 100 / 32 /\
  100 / 256 - 1 < IZR (init_fidelity 100 2).
Proof.
  apply (init_fidelity_bounds 100 2). lra.
Defined.

(** X5: the initial design does not look at [s_min].  In a round that uses
    the divisor 256 (round 0, 4, 8, ...) the fidelity is below [s_min]
    whenever [s_max < 256 * s_min], [s_max] being read as the float64 value
    the division converts the argument to. *)
Theorem first_fidelity_below_s_min (s_min s_max : R) (i : Z) :
  0 <= s_max -> s_max < 256 * s_min -> (i mod 4 = 0)%Z ->
  IZR (init_fidelity s_max i) < s_min.
Proof.
  intros Hs Hsmall Hi.
  rewrite (init_fidelity_divisor s_max i 0 256 Hi eq_refl).
  rewrite py_int_nonneg by lra.
  destruct (Int_part_bounds (s_max / 256)) as [Hlo _]. lra.
Qed.

Lemma first_fidelity_below_s_min_witness :
  IZR (init_fidelity 100 0) < 1.
Proof.
  apply (first_fidelity_below_s_min 1 100 0); [lra | lra | reflexivity].
Defined.


(** *** Python indexing from the end *)

Lemma py_get_last {A} (l : list A) (a : A) :
  py_get l (-1) = Some a -> l = removelast l ++ [a].
Proof.
  induction l as [| b l' _] using rev_ind.
  - discriminate.
  - unfold py_get. rewrite length_app. cbn [length].
    change (-1 <? 0)%Z with true. cbv iota.
    destruct (_ && _)%bool; [ | discriminate].
    replace (Z.to_nat (Z.of_nat (length l' + 1) + -1)) with (length l') by lia.
    rewrite nth_error_app2, Nat.sub_diag by lia. cbn.
    intros H. inversion H; subst. now rewrite removelast_last.
Qed.

Lemma py_get_last_app {A} (l : list A) (a : A) :
  py_get (l ++ [a]) (-1) = Some a.
Proof.
  unfold py_get. rewrite length_app. cbn [length].
  change (-1 <? 0)%Z with true. cbv iota.
  destruct (Z.leb_spec 0 (Z.of_nat (length l + 1) + -1)); [ | lia].
  destruct (Z.ltb_spec (Z.of_nat (length l + 1) + -1)
                       (Z.of_nat (length l + 1))); [ | lia].
  cbn [andb].
  replace (Z.to_nat (Z.of_nat (length l + 1) + -1)) with (length l) by lia.
  now rewrite nth_error_app2, Nat.sub_diag by lia.
Qed.

Ltac py_split_eq :=
  match goal with
  | |- context [time_time ?E ?w0] => destruct (time_time E w0); cbn
  | |- context [projected_incumbent_estimation ?E ?m ?x ?v ?w0] =>
      destruct (projected_incumbent_estimation E m x v w0) as [[? ?] ?]; cbn
  | |- context [maximize ?E ?w0] => destruct (maximize E w0) eqn:?; cbn
  | |- context [objective_function ?E ?x ?s ?w0] =>
      destruct (objective_function E x s w0) as [[? ?] ?] eqn:?; cbn
  end.

Section GuidedRound.
Context {world rng_t : Type}.
Variable E : collaborators world rng_t.
Variable p : params rng_t.
Implicit Type st : state world.

(** The events of a model-guided round that gets to its evaluation. *)
Definition guided_events st (cfg : list R) (s_t : R) : list event :=
  [EvTrain ModelObjective (X st) (y st) (Some true);
   EvTrain ModelCost (X st) (c st) (Some true);
   EvProject ModelObjective (map (@removelast R) (X st)) (s_max p);
   EvAcqUpdate;
   EvMaximize;
   EvObjective cfg (retransform (numpy E) s_t (s_min p) (s_max p))].

(** The three timing lists have grown by [k] entries. *)
Definition timing_grown (k : nat) st st' : Prop :=
  length (time_func_eval st') = (length (time_func_eval st) + k)%nat /\
  length (time_overhead st') = (length (time_overhead st) + k)%nat /\
  length (runtime st') = (length (runtime st) + k)%nat.

Lemma guided_round_completed time_start it st st' :
  guided_round E p time_start it st = (Ret tt, st') ->
  exists incumbent cfg s_t new_y new_c w0 w1 w2 w3,
    maximize E w0 = (cfg ++ [s_t], w1) /\
    objective_function E cfg
      (retransform (numpy E) s_t (s_min p) (s_max p)) w2 =
      ((new_y, new_c), w3) /\
    X st' = X st ++ [cfg ++ [s_t]] /\ y st' = y st ++ [new_y] /\
    c st' = c st ++ [new_c] /\
    incumbents st' = incumbents st ++ [incumbent] /\
    trace st' = trace st ++ guided_events st cfg s_t /\
    timing_grown 1 st st'.
Proof.
  unfold guided_round. py_unfold. repeat py_split_eq.
  unfold drop_last_column, np_concatenate_row.
  destruct (X st) as [| row rows] eqn:HX; py_unfold; repeat py_split_eq;
    [discriminate | ].
  match goal with
  | |- context [py_get ?l ?k] => destruct (py_get l k) as [s_t | ] eqn:Hlast
  end; py_unfold; repeat py_split_eq; [ | discriminate].
  match goal with |- context [Nat.eqb ?a ?b] => destruct (Nat.eqb a b) end;
    py_unfold; repeat py_split_eq; [ | discriminate].
  intros Hret. inversion Hret; subst; clear Hret.
  apply py_get_last in Hlast.
  match goal with
  | Hm : maximize E _ = (?pt, _), Hl : ?pt = removelast ?pt ++ [?a] |- _ =>
      eexists _, (removelast pt), a, _, _, _, _, _, _;
      split; [rewrite <- Hl; exact Hm | split; [eassumption | ]];
      unfold guided_events, timing_grown; cbn;
      rewrite <- Hl, ?HX, <- !app_assoc, !length_app; cbn
  end.
  repeat split; reflexivity.
Qed.

Lemma objective_calls_app (t1 t2 : list event) :
  objective_calls (t1 ++ t2) = (objective_calls t1 + objective_calls t2)%nat.
Proof.
  unfold objective_calls. now rewrite filter_app, length_app.
Qed.

(** X6: a completed model-guided round has trained both models on the store
    as it was, projected, updated and maximized the acquisition function,
    and then evaluated the objective exactly once.  Whatever the projection
    returns as incumbent, the maximizer as point and the objective as value
    and cost, the round appends exactly that incumbent, that point
    unchanged, that value and that cost; the objective is evaluated at the
    point without its last coordinate and at [retransform] of the last
    coordinate. *)
Theorem guided_round_stores_proposal time_start it st st'
    inc v w1 new_x w2 t0 w3 t1 w4 new_y new_c w5 :
  guided_round E p time_start it st = (Ret tt, st') ->
  projected_incumbent_estimation E ModelObjective
    (map (@removelast R) (X st)) (s_max p)
    (train E ModelCost (X st) (c st) (Some true)
       (train E ModelObjective (X st) (y st) (Some true)
          (snd (time_time E (w st))))) = ((inc, v), w1) ->
  maximize E (acquisition_update E w1) = (new_x, w2) ->
  time_time E w2 = (t0, w3) ->
  time_time E w3 = (t1, w4) ->
  objective_function E (removelast new_x)
    (retransform (numpy E) (last new_x 0) (s_min p) (s_max p)) w4 =
    ((new_y, new_c), w5) ->
  X st' = X st ++ [new_x] /\
  y st' = y st ++ [new_y] /\ c st' = c st ++ [new_c] /\
  incumbents st' = incumbents st ++ [inc] /\
  trace st' = trace st ++ guided_events st (removelast new_x) (last new_x 0) /\
  objective_calls (trace st') = S (objective_calls (trace st)).
Proof.
  intros Hround Hproj Hmax Ht0 Ht1 Hobj.
  revert Hround Hproj.
  unfold guided_round, guided_events. py_unfold.
  destruct (time_time E (w st)) as [ts w0]. cbn.
  unfold drop_last_column, np_concatenate_row.
  destruct (X st) as [| row rows] eqn:HX; [cbn; discriminate | ].
  intros Hround Hproj. revert Hround.
  cbn in Hproj |- *. rewrite Hproj. cbn. rewrite Hmax. cbn.
  destruct (py_get new_x (-1)) as [s_t | ] eqn:Hlast; cbn; [ | discriminate].
  apply py_get_last in Hlast.
  assert (Hs : last new_x 0 = s_t) by (rewrite Hlast; apply last_last).
  rewrite Hs in Hobj |- *.
  rewrite Ht0. cbn. rewrite Ht1. cbn. rewrite Hobj. cbn.
  destruct (time_time E w5) as [t2 w6]. cbn.
  destruct (Nat.eqb (length new_x) (length row)); cbn; [ | discriminate].
  destruct (time_time E w6) as [t3 w7]. cbn.
  intros Hround. apply (f_equal snd) in Hround. cbn [snd] in Hround.
  subst st'. cbn.
  unfold objective_calls.
  rewrite <- !app_assoc, !filter_app, !length_app. cbn.
  repeat split; try reflexivity. lia.
Qed.

(** X8: [k] completed rounds have evaluated the objective exactly [k] times
    and added [k] entries to each of the three timing lists. *)
Theorem completed_rounds_evaluations time_start rng0 k st st' :
  completed_rounds E p time_start rng0 k st st' ->
  objective_calls (trace st') = (objective_calls (trace st) + k)%nat /\
  timing_grown k st st'.
Proof.
  intros Hrounds.
  induction Hrounds as [st | k st st1 st2 Hrounds [IHc (IH1 & IH2 & IH3)] Hstep].
  - unfold timing_grown. rewrite !Nat.add_0_r. auto.
  - destruct Hstep as [i st1 st2 Hinit | it st1 st2 Hguided].
    + destruct (init_round_raises E p time_start rng0 i st1)
        as (st3 & x & Hr & _).
      rewrite Hr in Hinit. discriminate.
    + destruct (guided_round_completed _ _ _ _ Hguided)
        as (inc & cfg & s_t & new_y & new_c & w0 & w1 & w2 & w3 &
            _ & _ & _ & _ & _ & _ & Htr & (H1 & H2 & H3)).
      unfold timing_grown.
      rewrite Htr, objective_calls_app, IHc, H1, H2, H3, IH1, IH2, IH3.
      cbn. repeat split; lia.
Qed.

(** X9: a proposed point whose length differs from the row length of the
    store makes the round raise [ValueError] at the concatenation, after
    the objective has been evaluated: the store is unchanged, but the
    incumbent and two of the three timing entries of the round are already
    recorded. *)
Theorem guided_round_wrong_length time_start it st row rows cfg a :
  X st = row :: rows ->
  (forall w0, fst (maximize E w0) = cfg ++ [a]) ->
  length (cfg ++ [a]) <> length row ->
  exists st',
    guided_round E p time_start it st = (Raise ValueError, st') /\
    X st' = X st /\ y st' = y st /\ c st' = c st /\
    length (incumbents st') = S (length (incumbents st)) /\
    objective_calls (trace st') = S (objective_calls (trace st)) /\
    length (time_func_eval st') = S (length (time_func_eval st)) /\
    length (time_overhead st') = S (length (time_overhead st)) /\
    runtime st' = runtime st.
Proof.
  intros HX Hmax Hlen.
  unfold guided_round. py_unfold. repeat py_split_eq.
  unfold drop_last_column, np_concatenate_row. rewrite HX.
  py_unfold. repeat py_split_eq.
  match goal with
  | Hm : maximize E ?w0 = (?pt, _) |- _ =>
      pose proof (Hmax w0) as Hpt; rewrite Hm in Hpt; cbn in Hpt; subst pt
  end.
  rewrite py_get_last_app. py_unfold. repeat py_split_eq.
  apply Nat.eqb_neq in Hlen. rewrite Hlen. py_unfold.
  eexists. split; [reflexivity | ]. cbn.
  unfold objective_calls. rewrite ?filter_app, ?length_app. cbn.
  repeat split; try reflexivity; try assumption; lia.
Qed.

(** X10: an empty proposed point makes the round raise [IndexError] at
    [new_x[-1]], before the objective is evaluated: the store is unchanged
    and no timing entry is recorded, but the incumbent of the round is. *)
Theorem guided_round_empty_point time_start it st :
  X st <> [] ->
  (forall w0, fst (maximize E w0) = []) ->
  exists st',
    guided_round E p time_start it st = (Raise IndexError, st') /\
    X st' = X st /\ y st' = y st /\ c st' = c st /\
    length (incumbents st') = S (length (incumbents st)) /\
    objective_calls (trace st') = objective_calls (trace st) /\
    timing_grown 0 st st'.
Proof.
  intros HX Hmax.
  unfold guided_round. py_unfold. repeat py_split_eq.
  unfold drop_last_column.
  destruct (X st) as [| row rows] eqn:HXe; [contradiction | ].
  py_unfold. repeat py_split_eq.
  match goal with
  | Hm : maximize E ?w0 = (?pt, _) |- _ =>
      pose proof (Hmax w0) as Hpt; rewrite Hm in Hpt; cbn in Hpt; subst pt
  end.
  cbn.
  eexists. split; [reflexivity | ]. unfold timing_grown. cbn.
  unfold objective_calls. rewrite ?filter_app, ?length_app, ?Nat.add_0_r. cbn.
  repeat split; try reflexivity; try assumption; lia.
Qed.

(** *** Finalization *)

(** X11: on a non-empty store the finalization trains the objective model
    once, without a [do_optimize] argument, and projects once; it does not
    evaluate the objective, train the cost model or call the maximizer, and
    it leaves the store and the three timing lists as they are.  A result
    it returns carries those timing lists and a trajectory one longer than
    before. *)
Theorem finalize_effects st :
  X st <> [] ->
  trace (snd (finalize E p st)) =
    trace st ++
      [EvTrain ModelObjective (X st) (y st) None;
       EvProject ModelObjective (map (@removelast R) (X st)) 1] /\
  X (snd (finalize E p st)) = X st /\
  y (snd (finalize E p st)) = y st /\
  c (snd (finalize E p st)) = c st /\
  timing_grown 0 st (snd (finalize E p st)) /\
  (forall r, fst (finalize E p st) = Ret r ->
     res_runtime r = runtime st /\
     res_overhead r = time_overhead st /\
     res_time_func_eval r = time_func_eval st /\
     length (trajectory r) = S (length (incumbents st))).
Proof.
  intros HXne. unfold finalize. py_unfold. unfold drop_last_column.
  destruct (X st) as [| row rows] eqn:HX; [contradiction | ]. py_run.
  unfold set_last, timing_grown.
  match goal with
  | |- context [match ?l with [] => _ | _ :: _ => _ end] => destruct l; cbn
  end; rewrite <- !app_assoc, ?HX, ?Nat.add_0_r; cbn.
  - repeat split; try reflexivity; discriminate.
  - repeat split; try reflexivity;
      match goal with
      | H : Ret _ = Ret _ |- _ => inversion H; subst; cbn
      end; try reflexivity.
    rewrite length_app. cbn. lia.
Qed.

(** *** The call as a whole *)

Lemma guided_round_empty_store_trace time_start it st :
  X st = [] ->
  exists st',
    guided_round E p time_start it st = (Raise IndexError, st') /\
    same_store st st' /\
    trace st' = trace st ++
      [EvTrain ModelObjective [] (y st) (Some true);
       EvTrain ModelCost [] (c st) (Some true)].
Proof.
  intros HX. unfold guided_round. py_run.
  unfold drop_last_column. rewrite HX. py_run.
  eexists. split; [reflexivity | ].
  unfold same_store. cbn. rewrite HX, <- app_assoc. cbn.
  repeat split; reflexivity.
Qed.

Lemma finalize_empty_store_trace st :
  X st = [] ->
  exists st',
    finalize E p st = (Raise IndexError, st') /\
    same_store st st' /\
    trace st' = trace st ++ [EvTrain ModelObjective [] (y st) None].
Proof.
  intros HX. unfold finalize. py_run.
  unfold drop_last_column. rewrite HX. py_run.
  eexists. split; [reflexivity | ].
  unfold same_store. cbn. rewrite HX.
  repeat split; reflexivity.
Qed.

(** Without initial rounds the loops stop at the first [X[:, :-1]]. *)
Lemma run_rounds_no_initial time_start rng0 st :
  (n_init p <= 0)%Z -> store_sizes 0 st ->
  exists st' do_optimize,
    run_rounds E p time_start rng0 st = (Raise IndexError, st') /\
    store_sizes 0 st' /\
    objective_calls (trace st') = objective_calls (trace st) /\
    In (EvTrain ModelObjective [] [] do_optimize) (trace st') /\
    projections (trace st') = projections (trace st).
Proof.
  intros Hnone Hsizes.
  pose proof (store_sizes_0 st Hsizes) as (HX & Hy & Hc & Hi).
  unfold run_rounds. rewrite range_nonpos by assumption. cbn [for_each].
  rewrite (bind_ret_eq _ _ st tt st) by reflexivity.
  rewrite (bind_ret_eq _ _ st st st) by reflexivity.
  rewrite HX.
  rewrite (bind_ret_eq _ _ st [] st) by reflexivity.
  rewrite (bind_ret_eq _ _ st tt (set_X [] st)) by reflexivity.
  assert (Hsizes' : store_sizes 0 (set_X [] st))
    by (unfold store_sizes; cbn; now rewrite Hy, Hc, Hi).
  destruct (range2 (n_init p) (num_iterations p)) as [| it its].
  - cbn [for_each].
    rewrite (bind_ret_eq _ _ _ tt (set_X [] st)) by reflexivity.
    destruct (finalize_empty_store_trace (set_X [] st) eq_refl)
      as (st' & Hf & (HX' & Hy' & Hc' & Hi') & Htr).
    exists st', None. cbn in *.
    split; [assumption | split; [ | split; [ | split]]].
    + unfold store_sizes. now rewrite HX', Hy', Hc', Hi', Hy, Hc, Hi.
    + rewrite Htr, objective_calls_app. cbn. lia.
    + rewrite Htr, Hy. apply in_or_app. right. now left.
    + rewrite Htr, projections_app. cbn. now rewrite app_nil_r.
  - destruct (guided_round_empty_store_trace time_start it (set_X [] st) eq_refl)
      as (st' & Hg & (HX' & Hy' & Hc' & Hi') & Htr).
    exists st', (Some true).
    split;
      [apply bind_raise_eq; rewrite for_each_cons; now apply bind_raise_eq | ].
    cbn in *. split; [ | split; [ | split]].
    + unfold store_sizes. now rewrite HX', Hy', Hc', Hi', Hy, Hc, Hi.
    + rewrite Htr, objective_calls_app. cbn. lia.
    + rewrite Htr, Hy. apply in_or_app. right. now left.
    + rewrite Htr, projections_app. cbn. now rewrite app_nil_r.
Qed.

(** The call without initial rounds, with at least one dimension. *)
Lemma fabolas_no_initial st :
  (n_init p <= 0)%Z ->
  (n_init p <= num_iterations p)%Z ->
  length (lower p) = length (upper p) ->
  lower p <> [] ->
  exists st' do_optimize,
    fabolas E p st = (Raise IndexError, st') /\
    store_sizes 0 st' /\
    objective_calls (trace st') = objective_calls (trace st) /\
    In (EvTrain ModelObjective [] [] do_optimize) (trace st') /\
    projections (trace st') = projections (trace st).
Proof.
  intros Hnone Hle Hlen Hdim.
  destruct (before_setup E p st Hle Hlen)
    as (time_start & rng0 & st0 & Hrun & Hsizes0 & Htr0).
  destruct (setup_returns E p rng0 st0 Hdim)
    as (st1 & Hsetup & (HX & Hy & Hc & Hi) & _ & Hobj & Htr1).
  assert (Hsizes1 : store_sizes 0 st1).
  { destruct Hsizes0 as (HX0 & Hy0 & Hc0 & Hi0).
    unfold store_sizes. now rewrite HX, Hy, Hc, Hi. }
  destruct (run_rounds_no_initial time_start rng0 st1 Hnone Hsizes1)
    as (st' & flag & Hr & Hsizes' & Hcalls' & Hin & Hproj).
  exists st', flag.
  rewrite Hrun, (bind_ret_eq _ _ _ _ _ Hsetup), Hr.
  split; [reflexivity | split; [assumption | split; [ | split]]].
  - rewrite Hcalls'. unfold objective_calls. now rewrite Hobj, Htr0.
  - assumption.
  - rewrite Hproj, Htr1, projections_app, Htr0. cbn. now rewrite app_nil_r.
Qed.

(** X12: with [n_init <= 0], the preconditions met and at least one
    dimension, the call trains the objective model on the empty store and
    then raises [IndexError] at [X[:, :-1]]: the objective function is
    never evaluated and nothing is recorded. *)
Theorem no_initial_design_index_error st :
  (n_init p <= 0)%Z ->
  (n_init p <= num_iterations p)%Z ->
  length (lower p) = length (upper p) ->
  lower p <> [] ->
  exists st' do_optimize,
    fabolas E p st = (Raise IndexError, st') /\
    X st' = [] /\ y st' = [] /\ c st' = [] /\ incumbents st' = [] /\
    objective_calls (trace st') = objective_calls (trace st) /\
    In (EvTrain ModelObjective [] [] do_optimize) (trace st').
Proof.
  intros Hnone Hle Hlen Hdim.
  destruct (fabolas_no_initial st Hnone Hle Hlen Hdim)
    as (st' & flag & Hr & Hsizes' & Hcalls' & Hin & _).
  apply store_sizes_0 in Hsizes'. destruct Hsizes' as (HX & Hy & Hc & Hi).
  exists st', flag. repeat split; assumption.
Qed.

(** X13: [fabolas] returns a result for no arguments at all.  A violated
    precondition gives [AssertionError].  Otherwise empty bounds give the
    [TypeError] of [len(kernel)], [n_init >= 1] the [TypeError] of the
    first initial-design round, and [n_init <= 0] with at least one
    dimension the [IndexError] of [X[:, :-1]] on the empty store. *)
Theorem fabolas_never_returns st :
  exists e st',
    fabolas E p st = (Raise e, st') /\
    (((n_init p > num_iterations p)%Z \/
      length (lower p) <> length (upper p)) /\ e = AssertionError \/
     ((n_init p <= num_iterations p)%Z /\
      length (lower p) = length (upper p)) /\
     ((lower p = [] \/ (1 <= n_init p)%Z) /\ e = TypeError \/
      (lower p <> [] /\ (n_init p <= 0)%Z) /\ e = IndexError)).
Proof.
  destruct (Z.leb_spec (n_init p) (num_iterations p)) as [Hle | Hgt];
    [ | exists AssertionError, st; split;
        [apply asserts_fail; left; lia | left; split; [left; lia | easy]] ].
  destruct (Nat.eq_dec (length (lower p)) (length (upper p))) as [Hlen | Hlen];
    [ | exists AssertionError, st; split;
        [apply asserts_fail; now right | left; split; [now right | easy]] ].
  destruct (list_eq_dec Req_dec_T (lower p) []) as [Hdim | Hdim].
  { destruct (no_dimension_raises E p st Hle Hlen Hdim) as (st' & Hr & _).
    exists TypeError, st'. split; [assumption | ].
    right. split; [now split | left; split; [now left | reflexivity]]. }
  destruct (Z.le_gt_cases 1 (n_init p)) as [Hpos | Hnone].
  - destruct (prologue_returns E p st Hle Hlen Hdim)
      as (time_start & rng0 & st0 & Hrun & Hsizes & _).
    destruct (run_rounds_first_round E p time_start rng0 st0 Hpos)
      as (st' & x & Hr & _).
    exists TypeError, st'. split; [now rewrite Hrun | ].
    right. split; [now split | left; split; [now right | reflexivity]].
  - destruct (fabolas_no_initial st ltac:(lia) Hle Hlen Hdim)
      as (st' & flag & Hr & _).
    exists IndexError, st'. split; [assumption | ].
    right. split; [now split | right; split; [split; [assumption | lia] | reflexivity]].
Qed.

(** *** Setting up *)

Lemma removelast_repeat {A} (a : A) (n : nat) :
  removelast (repeat a (S n)) = repeat a n.
Proof.
  change (repeat a (S n)) with (a :: repeat a n).
  rewrite repeat_cons. apply removelast_last.
Qed.

(** X14: with at least one dimension the set-up returns: it creates the
    objective model, then the cost model, then the acquisition function
    over the bounds extended by 0 and 1, with an indicator that is 0 on
    every configuration coordinate and 1 on the added one, and records
    nothing.  With empty bounds it raises [TypeError] at [len(kernel)],
    the kernel variable being still the int 1, before anything is
    created. *)
Theorem setup_extends_bounds rng0 st :
  (lower p <> [] ->
   exists st',
     setup E p rng0 st = (Ret tt, st') /\
     trace st' = trace st ++
       [EvCreateModel ModelObjective;
        EvCreateModel ModelCost;
        EvCreateAcquisition (lower p ++ [0]) (upper p ++ [1])
          (repeat 0 (length (lower p)) ++ [1])] /\
     same_store st st') /\
  (lower p = [] -> setup E p rng0 st = (Raise TypeError, st)).
Proof.
  split.
  - intros Hdim.
    destruct (setup_returns E p rng0 st Hdim)
      as (st' & Hsetup & Hsame & _ & _ & Htr).
    exists st'. rewrite removelast_repeat in Htr.
    split; [assumption | split; assumption].
  - apply setup_no_dimension.
Qed.

(** *** The incumbent of the initial bookkeeping *)

Lemma argmin_from_min (l : list R) :
  forall pre best_idx best,
    nth_error pre best_idx = Some best ->
    (forall u, In u pre -> best <= u) ->
    (forall j u, (j < best_idx)%nat -> nth_error pre j = Some u -> best < u) ->
    exists m,
      nth_error (pre ++ l) (argmin_from best_idx best (length pre) l) = Some m /\
      (forall u, In u (pre ++ l) -> m <= u) /\
      (forall j u, (j < argmin_from best_idx best (length pre) l)%nat ->
                   nth_error (pre ++ l) j = Some u -> m < u).
Proof.
  induction l as [| a l IH]; intros pre best_idx best Hnth Hmin Hfirst.
  - cbn. rewrite app_nil_r. exists best. auto.
  - assert (Hb : (best_idx < length pre)%nat)
      by (apply nth_error_Some; congruence).
    cbn [argmin_from].
    replace (pre ++ a :: l) with ((pre ++ [a]) ++ l)
      by (now rewrite <- app_assoc).
    replace (S (length pre)) with (length (pre ++ [a]))
      by (rewrite length_app; cbn; lia).
    destruct (Rlt_dec a best) as [Hlt | Hge].
    + apply IH.
      * now rewrite nth_error_app2, Nat.sub_diag by lia.
      * intros u Hu. apply in_app_or in Hu. destruct Hu as [Hu | [<- | []]].
        -- specialize (Hmin u Hu). lra.
        -- lra.
      * intros j u Hj Hu. rewrite nth_error_app1 in Hu by assumption.
        apply nth_error_In in Hu. specialize (Hmin u Hu). lra.
    + apply IH.
      * now rewrite nth_error_app1 by assumption.
      * intros u Hu. apply in_app_or in Hu. destruct Hu as [Hu | [<- | []]].
        -- now apply Hmin.
        -- lra.
      * intros j u Hj Hu. rewrite nth_error_app1 in Hu by lia.
        now apply (Hfirst j).
Qed.

(** X15: run on a store of [n] records, the bookkeeping of an initial-design
    round returns and records as incumbent the stored row whose observed
    value is the smallest of all values so far, the new one included, and
    the earliest such row on ties, with [s_max] appended. *)
Theorem record_initial_incumbent_is_best time_start t0 x s_t v cost n st :
  store_sizes n st ->
  exists st' k best m,
    record_initial E p time_start t0 x s_t v cost st = (Ret tt, st') /\
    nth_error (X st ++ [x ++ [s_t]]) k = Some best /\
    nth_error (y st ++ [v]) k = Some m /\
    (forall u, In u (y st ++ [v]) -> m <= u) /\
    (forall j u, (j < k)%nat -> nth_error (y st ++ [v]) j = Some u -> m < u) /\
    incumbents st' = incumbents st ++ [best ++ [s_max p]].
Proof.
  intros (HX & Hy & Hc & Hi).
  unfold record_initial. py_unfold. unfold np_argmin.
  destruct (y st ++ [v]) as [| v0 ys] eqn:Hys;
    [now destruct (y st) | ]. cbn.
  destruct (argmin_from_min ys [v0] 0%nat v0 eq_refl) as (m & Hm & Hmin & Hfirst).
  { intros u [<- | []]. apply Rle_refl. }
  { intros j u Hj. lia. }
  cbn [length app] in Hm, Hmin, Hfirst.
  set (k := argmin_from 0 v0 1 ys) in *.
  assert (Hk : (k < length (X st ++ [x ++ [s_t]]))%nat).
  { assert (Hl : length (v0 :: ys) = S n)
      by (rewrite <- Hys, length_app; cbn; lia).
    assert (Hkl : (k < length (v0 :: ys))%nat)
      by (apply nth_error_Some; congruence).
    rewrite length_app. cbn. lia. }
  rewrite (py_get_nat _ _ Hk).
  destruct (nth_error (X st ++ [x ++ [s_t]]) k) as [best | ] eqn:Hnth;
    [ | apply nth_error_None in Hnth; lia ].
  py_run.
  eexists _, k, best, m. split; [reflexivity | ]. cbn.
  repeat split; try reflexivity; assumption.
Qed.

End GuidedRound.


(** *** The statements above on concrete runs *)

Lemma guided_round_stores_proposal_witness :
  X Scenario.after_guided =
    X Scenario.one_observation ++ [[1 / 2; 1 / 2; 1 / 2]] /\
  y Scenario.after_guided =
    y Scenario.one_observation ++ [fold_right Rplus 0 [1 / 2; 1 / 2]] /\
  c Scenario.after_guided =
    c Scenario.one_observation ++
      [retransform Scenario.exact_ops (1 / 2) 1 256] /\
  incumbents Scenario.after_guided =
    incumbents Scenario.one_observation ++ [[0; 0; 256]] /\
  trace Scenario.after_guided =
    trace Scenario.one_observation ++
      guided_events Scenario.E (Scenario.scenario 1 2)
        Scenario.one_observation [1 / 2; 1 / 2] (1 / 2) /\
  objective_calls (trace Scenario.after_guided) =
    S (objective_calls (trace Scenario.one_observation)).
Proof.
  apply (guided_round_stores_proposal Scenario.E (Scenario.scenario 1 2)
           0 1 Scenario.one_observation Scenario.after_guided
           [0; 0; 256] 0 1%nat [1 / 2; 1 / 2; 1 / 2] 1%nat
           (INR 1) 2%nat (INR 2) 3%nat
           (fold_right Rplus 0 [1 / 2; 1 / 2])
           (retransform Scenario.exact_ops (1 / 2) 1 256) 3%nat);
    reflexivity.
Defined.

Lemma completed_rounds_evaluations_witness :
  objective_calls (trace Scenario.after_guided) =
    (objective_calls (trace Scenario.one_observation) + 1)%nat /\
  timing_grown 1 Scenario.one_observation Scenario.after_guided.
Proof.
  apply (completed_rounds_evaluations Scenario.E (Scenario.scenario 1 2)
           0 tt 1 Scenario.one_observation Scenario.after_guided).
  eapply rounds_more; [apply rounds_none | ].
  apply (step_guided _ _ _ _ 1%Z). reflexivity.
Defined.

Lemma guided_round_wrong_length_witness :
  exists st',
    guided_round Variants.E_short (Scenario.scenario 1 2) 0 1
      Scenario.one_observation = (Raise ValueError, st') /\
    X st' = X Scenario.one_observation /\
    y st' = y Scenario.one_observation /\
    c st' = c Scenario.one_observation /\
    length (incumbents st') = S (length (incumbents Scenario.one_observation)) /\
    objective_calls (trace st') =
      S (objective_calls (trace Scenario.one_observation)) /\
    length (time_func_eval st') =
      S (length (time_func_eval Scenario.one_observation)) /\
    length (time_overhead st') =
      S (length (time_overhead Scenario.one_observation)) /\
    runtime st' = runtime Scenario.one_observation.
Proof.
  apply (guided_round_wrong_length Variants.E_short (Scenario.scenario 1 2)
           0 1 Scenario.one_observation [0; 0; 1 / 4] [] [1 / 2] (1 / 2)).
  - reflexivity.
  - reflexivity.
  - cbn. lia.
Defined.

Lemma guided_round_empty_point_witness :
  exists st',
    guided_round Variants.E_empty (Scenario.scenario 1 2) 0 1
      Scenario.one_observation = (Raise IndexError, st') /\
    X st' = X Scenario.one_observation /\
    y st' = y Scenario.one_observation /\
    c st' = c Scenario.one_observation /\
    length (incumbents st') = S (length (incumbents Scenario.one_observation)) /\
    objective_calls (trace st') =
      objective_calls (trace Scenario.one_observation) /\
    timing_grown 0 Scenario.one_observation st'.
Proof.
  apply (guided_round_empty_point Variants.E_empty (Scenario.scenario 1 2)
           0 1 Scenario.one_observation).
  - discriminate.
  - reflexivity.
Defined.

Lemma finalize_effects_witness :
  trace (snd (finalize Scenario.E (Scenario.scenario 1 1)
                Scenario.one_observation)) =
    trace Scenario.one_observation ++
      [EvTrain ModelObjective (X Scenario.one_observation)
         (y Scenario.one_observation) None;
       EvProject ModelObjective
         (map (@removelast R) (X Scenario.one_observation)) 1].
Proof.
  apply (finalize_effects Scenario.E (Scenario.scenario 1 1)
           Scenario.one_observation).
  discriminate.
Defined.

Lemma no_initial_design_index_error_witness :
  exists st' do_optimize,
    fabolas Scenario.E (Scenario.scenario 0 2) Scenario.start =
      (Raise IndexError, st') /\
    X st' = [] /\ y st' = [] /\ c st' = [] /\ incumbents st' = [] /\
    objective_calls (trace st') = objective_calls (trace Scenario.start) /\
    In (EvTrain ModelObjective [] [] do_optimize) (trace st').
Proof.
  apply (no_initial_design_index_error Scenario.E (Scenario.scenario 0 2));
    cbn; [lia | lia | reflexivity | discriminate].
Defined.

Lemma record_initial_incumbent_is_best_witness :
  exists st' k best m,
    record_initial Scenario.E (Scenario.scenario 3 3) 0 0 [1; 0] 0 5 6
      Variants.two_observations = (Ret tt, st') /\
    nth_error (X Variants.two_observations ++ [[1; 0] ++ [0]]) k = Some best /\
    nth_error (y Variants.two_observations ++ [5]) k = Some m /\
    (forall u, In u (y Variants.two_observations ++ [5]) -> m <= u) /\
    (forall j u, (j < k)%nat ->
       nth_error (y Variants.two_observations ++ [5]) j = Some u -> m < u) /\
    incumbents st' =
      incumbents Variants.two_observations ++ [best ++ [256]].
Proof.
  apply (record_initial_incumbent_is_best Scenario.E (Scenario.scenario 3 3)
           0 0 [1; 0] 0 5 6 2 Variants.two_observations).
  repeat split; reflexivity.
Defined.

(** C10, as stated, fails on the only model-guided round a call reaches:
    with [n_init = 0] and [num_iterations = 1] the round starts on the
    empty store, trains both models and raises [IndexError] at
    [X[:, :-1]]; the projection is not called, in that round or anywhere
    in the call. *)
Lemma guided_round_without_projection :
  (exists st',
     guided_round Scenario.E (Scenario.scenario 0 1) 0 0 Scenario.start =
       (Raise IndexError, st') /\
     trace st' =
       [EvTrain ModelObjective [] [] (Some true);
        EvTrain ModelCost [] [] (Some true)] /\
     projections (trace st') = []) /\
  (exists st' do_optimize,
     fabolas Scenario.E (Scenario.scenario 0 1) Scenario.start =
       (Raise IndexError, st') /\
     In (EvTrain ModelObjective [] [] do_optimize) (trace st') /\
     projections (trace st') = []).
Proof.
  split.
  - eexists. split; [reflexivity | split; reflexivity].
  - destruct (fabolas_no_initial Scenario.E (Scenario.scenario 0 1)
                Scenario.start)
      as (st' & flag & Hr & _ & _ & Hin & Hproj);
      [cbn; lia | cbn; lia | reflexivity | discriminate | ].
    exists st', flag. now repeat split.
Qed.

End LoopExtras.
